(** * pdf-to-png: a shallow embedding of [src/main.py]

    The batch converter reads PDF files from an input directory, renders
    every page with [pdf2image] and saves it as PNG with [PIL].  Everything
    the program does is an effect: it reads and writes the file system,
    configures the process-wide root logger, issues log records and calls
    two external libraries.  The embedding threads an explicit [World]
    through a small state-and-exception monad [Py]; the external libraries
    are the fields of [Collaborators].

    The functions of [main.py] are translated statement by statement:
    [configure_logging], [parse_args], [pdf_to_pngs] and [main].  What they
    call in the standard library ([pathlib], [os], [logging], [argparse]) is
    modelled next to them, as CPython 3.11 on a POSIX system behaves. *)

From Stdlib Require Import ZArith Ascii String List Lia.
From stdpp Require Import base decidable countable option list strings pretty gmap fin_maps.

Local Open Scope string_scope.
Local Open Scope Z_scope.

(** ** Strings as Python's [str] (byte strings, ASCII case mapping) *)

Module Str.

(** [s.startswith(pre)] *)
Definition startswith (pre s : string) : bool := String.prefix pre s.

(** [s.endswith(suf)] *)
Definition endswith (suf s : string) : bool :=
  if (String.length s <? String.length suf)%nat then false
  else String.eqb
         (String.substring (String.length s - String.length suf)
                           (String.length suf) s) suf.

Definition upper_ascii (c : ascii) : ascii :=
  let n := nat_of_ascii c in
  if ((97 <=? n) && (n <=? 122))%nat then ascii_of_nat (n - 32) else c.

(** [s.upper()]: the ASCII letters are mapped, every other byte is kept *)
Fixpoint upper (s : string) : string :=
  match s with
  | EmptyString => EmptyString
  | String c r => String (upper_ascii c) (upper r)
  end.

(** [s.rfind(c)]: index of the last occurrence of [c], [None] for -1 *)
Fixpoint rfind (c : ascii) (s : string) : option nat :=
  match s with
  | EmptyString => None
  | String a r =>
      match rfind c r with
      | Some i => Some (S i)
      | None => if Ascii.eqb a c then Some 0%nat else None
      end
  end.

(** [s.split(sep)] for a one-character separator *)
Fixpoint split (sep : ascii) (s : string) : list string :=
  match s with
  | EmptyString => [EmptyString]
  | String a r =>
      if Ascii.eqb a sep then EmptyString :: split sep r
      else match split sep r with
           | [] => [String a EmptyString]
           | w :: ws => String a w :: ws
           end
  end.

(** [s.partition(sep)]: the text before the first [sep] and, when [sep]
    occurs, the text after it *)
Fixpoint partition (sep : ascii) (s : string) : string * option string :=
  match s with
  | EmptyString => (EmptyString, None)
  | String a r =>
      if Ascii.eqb a sep then (EmptyString, Some r)
      else let '(h, t) := partition sep r in (String a h, t)
  end.

(** [sep.join(parts)] *)
Fixpoint join (sep : string) (parts : list string) : string :=
  match parts with
  | [] => EmptyString
  | [p] => p
  | p :: ps => p +:+ sep +:+ join sep ps
  end.

(** [x in xs] for a list of strings *)
Definition elem (x : string) (xs : list string) : bool :=
  existsb (String.eqb x) xs.

(** [d.get(k)] for a table with string keys *)
Fixpoint assoc {V} (k : string) (l : list (string * V)) : option V :=
  match l with
  | [] => None
  | (k', v) :: r => if String.eqb k k' then Some v else assoc k r
  end.

(** Every character of [s] satisfies [f] *)
Fixpoint all (f : ascii -> bool) (s : string) : bool :=
  match s with
  | EmptyString => true
  | String c r => f c && all f r
  end.

Definition isdigit (c : ascii) : bool :=
  let n := nat_of_ascii c in ((48 <=? n) && (n <=? 57))%nat.

End Str.

(** ** Paths ([pathlib.Path])

    A path is its sequence of components below the root; [d </> n] is
    Python's [d / n].  Relative paths are read from the root, that is, the
    working directory of the process is the root. *)

Inductive Path : Type :=
| Root : Path
| Child (parent : Path) (name : string) : Path.

Notation "d </> n" := (Child d n) (at level 40, left associativity).

Module PathOps.

(** [p.parent]; the root is its own parent *)
Definition parent (p : Path) : Path :=
  match p with Root => Root | Child d _ => d end.

(** [p.name] *)
Definition name (p : Path) : string :=
  match p with Root => EmptyString | Child _ n => n end.

(** [p.stem]: the name without its last suffix.  A dot in first or last
    position does not start a suffix. *)
Definition stem (p : Path) : string :=
  let n := name p in
  match Str.rfind "."%char n with
  | Some i =>
      if ((0 <? i) && (i <? String.length n - 1))%nat
      then String.substring 0 i n else n
  | None => n
  end.

Fixpoint parts (p : Path) : list string :=
  match p with Root => [] | Child d n => (parts d ++ [n])%list end.

(** [str(p)] *)
Definition str (p : Path) : string :=
  match p with
  | Root => "/"
  | _ => "/" +:+ Str.join "/" (parts p)
  end.

(** [Path(s)]: empty components and ["."] are dropped *)
Definition of_string (s : string) : Path :=
  fold_left
    (fun d c => if String.eqb c "" || String.eqb c "." then d else d </> c)
    (Str.split "/"%char s) Root.

Fixpoint to_rev_list (p : Path) : list string :=
  match p with Root => [] | Child d n => n :: to_rev_list d end.

Fixpoint of_rev_list (l : list string) : Path :=
  match l with [] => Root | n :: r => Child (of_rev_list r) n end.

Lemma of_to_rev_list p : of_rev_list (to_rev_list p) = p.
Proof. induction p as [|d IH n]; simpl; congruence. Qed.

End PathOps.

#[global] Instance Path_eq_dec : EqDecision Path.
Proof. solve_decision. Defined.

#[global] Instance Path_countable : Countable Path :=
  inj_countable' PathOps.to_rev_list PathOps.of_rev_list PathOps.of_to_rev_list.

(** ** Exceptions *)

Inductive OSErrorKind : Type :=
| FileExistsError
| FileNotFoundError
| NotADirectoryError
| IsADirectoryError
| PermissionError
| OtherOSError (strerror : string).

(** The three exceptions [main.py] imports from [pdf2image.exceptions]. *)
Inductive Pdf2ImageErrorKind : Type :=
| PDFInfoNotInstalledError
| PDFPageCountError
| PDFSyntaxError.

Inductive exn : Type :=
| SystemExit (code : Z)
| OSError (kind : OSErrorKind) (filename : Path)
| Pdf2ImageError (kind : Pdf2ImageErrorKind) (message : string)
| ValueError (message : string)
| TypeError (message : string)
(** [class PdfConversionError(RuntimeError)], raised [from] its cause *)
| PdfConversionError (message : string) (cause : exn).

Definition strerror (k : OSErrorKind) : string :=
  match k with
  | FileExistsError => "File exists"
  | FileNotFoundError => "No such file or directory"
  | NotADirectoryError => "Not a directory"
  | IsADirectoryError => "Is a directory"
  | PermissionError => "Permission denied"
  | OtherOSError s => s
  end.

(** [str(e)] *)
Definition exn_str (e : exn) : string :=
  match e with
  | SystemExit c => pretty c
  | OSError k p => strerror k +:+ ": '" +:+ PathOps.str p +:+ "'"
  | Pdf2ImageError _ m => m
  | ValueError m => m
  | TypeError m => m
  | PdfConversionError m _ => m
  end.

(** ** The world: file system, root logger, effect traces *)

Inductive node : Type :=
| File
| Dir (writable : bool).

Inductive Handler : Type :=
| FileHandler (filename : Path)
| StreamHandler.

(** A call of a logging method.  [rec_sinks] are the sinks the record
    reached: the root logger's handlers when the record's level passes the
    root logger's threshold, none otherwise. *)
Record LogRecord : Type := mkLogRecord {
  rec_level : Z;
  rec_msg : string;
  rec_sinks : list Handler
}.

Record World : Type := mkWorld {
  fs : gmap Path node;
  root_level : Z;
  root_handlers : list Handler;
  log : list LogRecord;      (* logging calls, oldest first *)
  writes : list Path         (* images saved, oldest first *)
}.

Definition with_fs (f : gmap Path node) (w : World) : World :=
  mkWorld f (root_level w) (root_handlers w) (log w) (writes w).
Definition with_root_level (l : Z) (w : World) : World :=
  mkWorld (fs w) l (root_handlers w) (log w) (writes w).
Definition with_root_handlers (h : list Handler) (w : World) : World :=
  mkWorld (fs w) (root_level w) h (log w) (writes w).
Definition with_log (l : list LogRecord) (w : World) : World :=
  mkWorld (fs w) (root_level w) (root_handlers w) l (writes w).
Definition with_writes (ws : list Path) (w : World) : World :=
  mkWorld (fs w) (root_level w) (root_handlers w) (log w) ws.

(** ** The monad of Python statements: state and exceptions *)

Inductive Outcome (A : Type) : Type :=
| Returns (a : A)
| Raises (e : exn).
Arguments Returns {A} a.
Arguments Raises {A} e.

Definition Py (A : Type) : Type := World -> Outcome A * World.

Definition ret {A} (a : A) : Py A := fun w => (Returns a, w).
Definition raise {A} (e : exn) : Py A := fun w => (Raises e, w).
Definition bind {A B} (m : Py A) (k : A -> Py B) : Py B :=
  fun w => match m w with
           | (Returns a, w') => k a w'
           | (Raises e, w') => (Raises e, w')
           end.
Definition get : Py World := fun w => (Returns w, w).
Definition modify (f : World -> World) : Py unit := fun w => (Returns tt, f w).

Notation "x <- m ;; k" := (bind m (fun x => k))
  (at level 20, m at level 99, k at level 200, only parsing).
Notation "m ;; k" := (bind m (fun _ => k))
  (at level 100, k at level 200, right associativity, only parsing).

(** [try: body  except <clause>: handler].  [handler e] is [None] when no
    [except] clause matches [e]; the exception then propagates.  The effects
    of [body] up to the [raise] stay. *)
Definition try_except {A} (body : Py A) (handler : exn -> option (Py A)) : Py A :=
  fun w => match body w with
           | (Returns a, w') => (Returns a, w')
           | (Raises e, w') =>
               match handler e with
               | Some h => h w'
               | None => (Raises e, w')
               end
           end.

(** ** The operating system *)

Module OS.

(** [p.exists()] *)
Definition exists_ (p : Path) : Py bool :=
  w <- get ;; ret (bool_decide (is_Some (fs w !! p))).

(** [p.is_dir()] *)
Definition is_dir (p : Path) : Py bool :=
  w <- get ;; ret (match fs w !! p with Some (Dir _) => true | _ => false end).

(** [os.access(p, os.W_OK)] *)
Definition access_W_OK (p : Path) : Py bool :=
  w <- get ;;
  ret (match fs w !! p with
       | Some (Dir wr) => wr
       | Some File => true
       | None => false
       end).

(** [os.mkdir(p)]: one directory, whose parent must be a writable
    directory *)
Definition mkdir1 (p : Path) : Py unit :=
  w <- get ;;
  match fs w !! p with
  | Some _ => raise (OSError FileExistsError p)
  | None =>
      match p with
      | Root => raise (OSError FileNotFoundError p)
      | Child d _ =>
          match fs w !! d with
          | None => raise (OSError FileNotFoundError p)
          | Some File => raise (OSError NotADirectoryError p)
          | Some (Dir false) => raise (OSError PermissionError p)
          | Some (Dir true) => modify (with_fs (<[p := Dir true]> (fs w)))
          end
      end
  end.

(** What [Path.mkdir] does with an [OSError] of [os.mkdir] when
    [exist_ok=True]: swallow it if the path is a directory. *)
Definition exist_ok_handler (p : Path) (e : exn) : option (Py unit) :=
  match e with
  | OSError _ _ =>
      Some (d <- is_dir p ;; if d then ret tt else raise e)
  | _ => None
  end.

(** [p.mkdir(parents=True, exist_ok=True)] *)
Fixpoint mkdir_parents (p : Path) : Py unit :=
  try_except (mkdir1 p)
    (fun e =>
       match e with
       | OSError FileNotFoundError _ =>
           match p with
           | Root => None               (* [self.parent == self]: re-raise *)
           | Child d _ =>
               Some (mkdir_parents d ;;
                     try_except (mkdir1 p)
                       (fun e' =>
                          match e' with
                          | OSError FileNotFoundError _ => None
                          | _ => exist_ok_handler p e'
                          end))
           end
       | _ => exist_ok_handler p e
       end).

(** [open(p, "a")] or [open(p, "w")], closed again: the file exists
    afterwards.  An existing file is opened whatever its directory allows;
    a new file needs a writable directory. *)
Definition open_for_writing (p : Path) : Py unit :=
  w <- get ;;
  match fs w !! p with
  | Some (Dir _) => raise (OSError IsADirectoryError p)
  | Some File => ret tt
  | None =>
      match fs w !! PathOps.parent p with
      | None => raise (OSError FileNotFoundError p)
      | Some File => raise (OSError NotADirectoryError p)
      | Some (Dir false) => raise (OSError PermissionError p)
      | Some (Dir true) => modify (with_fs (<[p := File]> (fs w)))
      end
  end.

(** The entries of directory [d], in the order the map lists them *)
Definition scandir (d : Path) (f : gmap Path node) : list Path :=
  filter (fun p => p <> Root /\ PathOps.parent p = d) (map_to_list f).*1.

(** [list(d.glob(pattern))] for a pattern [*<suffix>]: the entries of [d]
    whose name ends with the suffix, compared byte for byte *)
Definition glob_suffix (d : Path) (suffix : string) : Py (list Path) :=
  w <- get ;;
  ret (filter (fun p => Str.endswith suffix (PathOps.name p) = true)
              (scandir d (fs w))).

End OS.

(** ** The [logging] module *)

Module Logging.

Definition DEBUG : Z := 10.
Definition INFO : Z := 20.
Definition WARNING : Z := 30.
Definition ERROR : Z := 40.
Definition CRITICAL : Z := 50.

(** The values [getattr(logging, name)] can give for a name that
    [str.upper] can produce. *)
Inductive attr : Type :=
| AttrInt (n : Z)
| AttrStr (s : string)
| AttrDict.

(** The attributes of the module whose names have no lower-case letter,
    the only ones [log_level.upper()] can name: the level constants, and two
    that are not levels. *)
Definition module_attrs : list (string * attr) :=
  [ ("CRITICAL", AttrInt 50); ("FATAL", AttrInt 50); ("ERROR", AttrInt 40);
    ("WARNING", AttrInt 30); ("WARN", AttrInt 30); ("INFO", AttrInt 20);
    ("DEBUG", AttrInt 10); ("NOTSET", AttrInt 0);
    ("BASIC_FORMAT", AttrStr "%(levelname)s:%(name)s:%(message)s");
    ("_STYLES", AttrDict) ].

(** [getattr(logging, name, default)] *)
Definition getattr (name : string) (default : attr) : attr :=
  match Str.assoc name module_attrs with
  | Some a => a
  | None => default
  end.

(** [logging._nameToLevel] *)
Definition _nameToLevel : list (string * Z) :=
  [ ("CRITICAL", 50); ("FATAL", 50); ("ERROR", 40); ("WARN", 30);
    ("WARNING", 30); ("INFO", 20); ("DEBUG", 10); ("NOTSET", 0) ].

(** [logging._checkLevel(level)] *)
Definition _checkLevel (level : attr) : Py Z :=
  match level with
  | AttrInt n => ret n
  | AttrStr s =>
      match Str.assoc s _nameToLevel with
      | Some n => ret n
      | None => raise (ValueError ("Unknown level: '" +:+ s +:+ "'"))
      end
  | AttrDict => raise (TypeError "Level not an integer or a valid string")
  end.

(** [root.setLevel(level)] *)
Definition setLevel (level : attr) : Py unit :=
  n <- _checkLevel level ;; modify (with_root_level n).

(** [logging.FileHandler(filename, mode="a", encoding="utf-8")]: the
    constructor opens the file. *)
Definition new_FileHandler (filename : Path) : Py Handler :=
  OS.open_for_writing filename ;; ret (FileHandler filename).

(** [for handler in root_logger.handlers[:]: root_logger.removeHandler(handler)] *)
Definition remove_all_handlers : Py unit := modify (with_root_handlers []).

(** [logging.basicConfig(level=level, format=..., handlers=handlers)]:
    does nothing when the root logger already has handlers; otherwise
    attaches [handlers], then sets the level. *)
Definition basicConfig (level : attr) (handlers : list Handler) : Py unit :=
  w <- get ;;
  match root_handlers w with
  | [] => modify (with_root_handlers handlers) ;; setLevel level
  | _ :: _ => ret tt
  end.

(** [logger.log(level, msg)] on the logger of [get_logger()], whose
    effective level is the root logger's and whose records go to the root
    logger's handlers. *)
Definition log_ (level : Z) (msg : string) : Py unit :=
  modify (fun w =>
    with_log (log w ++ [mkLogRecord level msg
                          (if root_level w <=? level then root_handlers w else [])])%list w).

Definition info := log_ INFO.
Definition warning := log_ WARNING.
Definition error := log_ ERROR.

End Logging.

(** ** External collaborators *)

(** A decoded page, [PIL.Image.Image]; only its identity matters. *)
Inductive Image : Type := PageImage (id : nat).

Inductive DecodeResult : Type :=
| Decoded (images : list Image)
| DecodeError (kind : Pdf2ImageErrorKind) (message : string).

(** What the program takes from its surroundings: the PDF renderer, which
    returns the pages or raises one of the three exceptions [main.py]
    imports; the faults of the image encoder, which are [OSError]s (disk
    full and the like, beyond what the directory structure already
    decides); the location of [main.py] ([__file__]) and the arguments of
    the process ([sys.argv[1:]]). *)
Record Collaborators : Type := mkCollaborators {
  decode_pdf : Path -> DecodeResult;
  save_fault : gmap Path node -> Image -> Path -> option OSErrorKind;
  module_file : Path;
  sys_argv_tail : list string
}.

Section Program.

Context (env : Collaborators).

(** [pdf2image.convert_from_path(str(pdf_path))] *)
Definition convert_from_path (pdf_path : Path) : Py (list Image) :=
  match decode_pdf env pdf_path with
  | Decoded images => ret images
  | DecodeError k m => raise (Pdf2ImageError k m)
  end.

(** [img.save(output_path, "PNG")].  The file exists afterwards; a failed
    save leaves the file system as it was. *)
Definition Image_save (img : Image) (output_path : Path) : Py unit :=
  w <- get ;;
  match save_fault env (fs w) img output_path with
  | Some k => raise (OSError k output_path)
  | None =>
      OS.open_for_writing output_path ;;
      modify (fun w' => with_writes (writes w' ++ [output_path])%list w')
  end.

(** ** [pdf_to_pngs] *)

(** [output_dir / f"{pdf_path.stem}_page_{i}.png"] *)
Definition page_path (pdf_path output_dir : Path) (i : nat) : Path :=
  output_dir </> (PathOps.stem pdf_path +:+ "_page_" +:+ pretty i +:+ ".png").

(** The body of [for i, img in enumerate(images, start=1)], from page [i]
    on, with the paths collected so far. *)
Fixpoint save_pages (pdf_path output_dir : Path) (overwrite : bool)
    (images : list Image) (i : nat) (output_paths : list Path) : Py (list Path) :=
  match images with
  | [] => ret output_paths
  | img :: rest =>
      let output_path := page_path pdf_path output_dir i in
      ex <- OS.exists_ output_path ;;
      if ex && negb overwrite then
        Logging.info ("Skipping existing file: " +:+ PathOps.str output_path) ;;
        save_pages pdf_path output_dir overwrite rest (S i) output_paths
      else
        output_paths' <-
          try_except
            (Image_save img output_path ;;
             Logging.info ("Saved " +:+ PathOps.str output_path) ;;
             ret (output_paths ++ [output_path])%list)
            (fun e =>
               match e with
               | OSError _ _ =>
                   Some (Logging.error ("Failed to save " +:+ PathOps.str output_path
                                        +:+ ": " +:+ exn_str e) ;;
                         raise (PdfConversionError
                                  ("Failed to save " +:+ PathOps.str output_path) e))
               | _ => None
               end) ;;
        save_pages pdf_path output_dir overwrite rest (S i) output_paths'
  end.

Definition pdf_to_pngs (pdf_path output_dir : Path) (overwrite : bool) : Py (list Path) :=
  images <-
    try_except (convert_from_path pdf_path)
      (fun e =>
         match e with
         | Pdf2ImageError _ _ =>
             Some (Logging.error ("Failed to convert " +:+ PathOps.str pdf_path
                                  +:+ ": " +:+ exn_str e) ;;
                   raise (PdfConversionError
                            ("PDF conversion failed for " +:+ PathOps.str pdf_path) e))
         | _ => None
         end) ;;
  save_pages pdf_path output_dir overwrite images 1%nat [].

(** ** [configure_logging] *)

Definition configure_logging (output_dir : Path) (log_level : string)
    (log_to_console : bool) : Py unit :=
  OS.mkdir_parents output_dir ;;
  let log_file := output_dir </> "app.log" in
  file_handler <- Logging.new_FileHandler log_file ;;
  let handlers :=
    ([file_handler] ++ (if log_to_console then [StreamHandler] else []))%list in
  Logging.remove_all_handlers ;;
  Logging.basicConfig
    (Logging.getattr (Str.upper log_level) (Logging.AttrInt Logging.INFO))
    handlers.

End Program.

(** ** [parse_args]

    The parser [main.py] builds has the option strings below ([-h] and
    [--help] are the ones [argparse] adds by itself).  [ArgParse] is the part
    of [argparse.ArgumentParser.parse_args] these options reach: exact
    option strings, [--option=value], unambiguous prefixes of long options,
    [--] and the final check for unrecognized arguments, as in Python
    3.11. *)

Record Namespace : Type := mkNamespace {
  input_dir : Path;
  output_dir : Path;
  log_level : string;
  log_to_console : bool
}.

Module ArgParse.

Inductive Dest : Type :=
| help
| dest_input_dir
| dest_output_dir
| dest_log_level
| dest_log_to_console.

Definition option_strings : list (string * Dest) :=
  [ ("-h", help); ("--help", help);
    ("--input-dir", dest_input_dir);
    ("--output-dir", dest_output_dir);
    ("--log-level", dest_log_level);
    ("--log-to-console", dest_log_to_console) ].

(** [choices=["DEBUG", "INFO", "WARNING", "ERROR", "CRITICAL"]] *)
Definition log_level_choices : list string :=
  ["DEBUG"; "INFO"; "WARNING"; "ERROR"; "CRITICAL"].

Inductive Token : Type :=
| TokOption (d : Dest) (explicit_arg : option string)
| TokAmbiguous
| TokArgument
| TokUnknownOption.

(** [_negative_number_matcher]: [-] and digits, or [-], digits or none, a
    dot and digits *)
Definition negative_number (t : string) : bool :=
  match t with
  | String "-" r =>
      let '(int_part, frac) := Str.partition "."%char r in
      match frac with
      | None => negb (String.eqb int_part "") && Str.all Str.isdigit int_part
      | Some f => Str.all Str.isdigit int_part
                  && negb (String.eqb f "") && Str.all Str.isdigit f
      end
  | _ => false
  end.

(** What is left for a token that starts with [-] and matches no option:
    a negative number or a token with a space is an argument. *)
Definition unmatched (t : string) : Token :=
  if negative_number t || negb (Str.all (fun c => negb (Ascii.eqb c " ")) t)
  then TokArgument else TokUnknownOption.

(** [_parse_optional] *)
Definition classify (t : string) : Token :=
  if negb (Str.startswith "-" t) then TokArgument
  else
    match Str.assoc t option_strings with
    | Some d => TokOption d None
    | None =>
        if (String.length t =? 1)%nat then TokArgument
        else
          let '(flag, explicit_arg) := Str.partition "="%char t in
          match explicit_arg, Str.assoc flag option_strings with
          | Some v, Some d => TokOption d (Some v)
          | _, _ =>
              if Str.startswith "--" t then
                (* a prefix of long options *)
                match List.filter (fun o => Str.startswith flag (fst o)) option_strings with
                | [] => unmatched t
                | [(_, d)] => TokOption d explicit_arg
                | _ :: _ :: _ => TokAmbiguous
                end
              else if Str.startswith "-h" t then
                (* [-h] with more text attached: [-hh] is [-h -h] *)
                let attached := String.substring 2 (String.length t - 2) t in
                if Str.all (Ascii.eqb "h") attached then TokOption help None
                else TokOption help (Some attached)
              else unmatched t
          end
    end.

(** The checked conversion of the value of an option that takes one. *)
Definition store (d : Dest) (v : string) (ns : Namespace) : Outcome Namespace :=
  match d with
  | dest_input_dir =>
      Returns (mkNamespace (PathOps.of_string v) (output_dir ns) (log_level ns)
                           (log_to_console ns))
  | dest_output_dir =>
      Returns (mkNamespace (input_dir ns) (PathOps.of_string v) (log_level ns)
                           (log_to_console ns))
  | dest_log_level =>
      if Str.elem v log_level_choices
      then Returns (mkNamespace (input_dir ns) (output_dir ns) v (log_to_console ns))
      else Raises (SystemExit 2)       (* invalid choice *)
  | _ => Raises (SystemExit 2)
  end.

(** The options are consumed from left to right; [extras] counts the
    arguments no option takes. *)
Fixpoint consume (toks : list string) (ns : Namespace) (extras : nat)
    : Outcome Namespace :=
  match toks with
  | [] =>
      match extras with
      | O => Returns ns
      | S _ => Raises (SystemExit 2)   (* unrecognized arguments *)
      end
  | t :: rest =>
      if String.eqb t "--" then
        Raises (SystemExit 2)   (* [--] and what follows it: unrecognized *)
      else
      match classify t with
      | TokArgument | TokUnknownOption => consume rest ns (S extras)
      | TokAmbiguous => Raises (SystemExit 2)
      | TokOption help None => Raises (SystemExit 0)       (* prints the help *)
      | TokOption help (Some _) => Raises (SystemExit 2)
      | TokOption dest_log_to_console None =>
          consume rest
            (mkNamespace (input_dir ns) (output_dir ns) (log_level ns) true) extras
      | TokOption dest_log_to_console (Some _) => Raises (SystemExit 2)
      | TokOption d (Some v) =>
          match store d v ns with
          | Returns ns' => consume rest ns' extras
          | Raises e => Raises e
          end
      | TokOption d None =>
          match rest with
          | v :: rest' =>
              match classify v with
              | TokArgument =>
                  match store d v ns with
                  | Returns ns' => consume rest' ns' extras
                  | Raises e => Raises e
                  end
              | _ => Raises (SystemExit 2)   (* expected one argument *)
              end
          | [] => Raises (SystemExit 2)
          end
      end
  end.

(** Every token before [--] is classified before any option is consumed,
    so an ambiguous prefix is reported first. *)
Fixpoint ambiguous (toks : list string) : bool :=
  match toks with
  | [] => false
  | t :: rest =>
      if String.eqb t "--" then false
      else match classify t with
           | TokAmbiguous => true
           | _ => ambiguous rest
           end
  end.

Definition parse (defaults : Namespace) (toks : list string) : Outcome Namespace :=
  if ambiguous toks then Raises (SystemExit 2)
  else consume toks defaults 0%nat.

End ArgParse.

Section Main.

Context (env : Collaborators).

Definition defaults : Namespace :=
  {| input_dir := PathOps.parent (PathOps.parent (module_file env)) </> "data";
     output_dir := PathOps.parent (PathOps.parent (module_file env)) </> "output";
     log_level := "INFO";
     log_to_console := false |}.

Definition parse_args (args : option (list string)) : Py Namespace :=
  fun w =>
    (ArgParse.parse defaults
       (match args with Some a => a | None => sys_argv_tail env end), w).

(** ** [main] *)

(** [for pdf_file in pdf_files: ...] with the exit code so far *)
Fixpoint convert_all (pdf_files : list Path) (output_dir : Path) (exit_code : Z)
    : Py Z :=
  match pdf_files with
  | [] => ret exit_code
  | pdf_file :: rest =>
      exit_code' <-
        try_except
          (pdf_to_pngs env pdf_file output_dir false ;; ret exit_code)
          (fun e =>
             match e with
             | PdfConversionError _ _ => Some (Logging.error (exn_str e) ;; ret 1)
             | _ => None
             end) ;;
      convert_all rest output_dir exit_code'
  end.

Definition main (args : option (list string)) : Py Z :=
  parsed <- parse_args args ;;
  configure_logging (output_dir parsed) (log_level parsed) (log_to_console parsed) ;;
  let input_dir := input_dir parsed in
  let output_dir := output_dir parsed in
  is_dir <- OS.is_dir input_dir ;;
  if negb is_dir then
    Logging.error ("Input directory does not exist: " +:+ PathOps.str input_dir) ;;
    ret 1
  else
    created <-
      try_except (OS.mkdir_parents output_dir ;; ret true)
        (fun e =>
           match e with
           | SystemExit _ => None          (* not an [Exception] *)
           | _ =>
               Some (Logging.error ("Cannot create output directory "
                                    +:+ PathOps.str output_dir +:+ ": " +:+ exn_str e) ;;
                     ret false)
           end) ;;
    if negb created then ret 1
    else
      writable <- OS.access_W_OK output_dir ;;
      if negb writable then
        Logging.error ("Output directory is not writable: " +:+ PathOps.str output_dir) ;;
        ret 1
      else
        pdf_files <- OS.glob_suffix input_dir ".pdf" ;;
        match pdf_files with
        | [] =>
            Logging.warning ("No PDF files found in " +:+ PathOps.str input_dir) ;;
            ret 0
        | _ :: _ => convert_all pdf_files output_dir 0
        end.

End Main.

(** * The vocabulary of the properties *)

(** ** How worlds change *)

(** Every path of [f'] is as in [f], or is a file that was not in [f]. *)
Definition fs_extends (f f' : gmap Path node) : Prop :=
  forall p, f' !! p = f !! p \/ (f !! p = None /\ f' !! p = Some File).

(** What is in [f] is in [f'] unchanged. *)
Definition fs_grows (f f' : gmap Path node) : Prop :=
  forall p x, f !! p = Some x -> f' !! p = Some x.

(** Everything but the file system *)
Definition same_process_state (w w' : World) : Prop :=
  root_level w' = root_level w /\ root_handlers w' = root_handlers w
  /\ log w' = log w /\ writes w' = writes w.

(** [q] is [p] or a directory above [p] *)
Fixpoint ancestor_or_self (q p : Path) : Prop :=
  match p with
  | Root => q = Root
  | Child d _ => q = p \/ ancestor_or_self q d
  end.

(** What [mkdir(parents=True)] may change: directories that did not
    exist, on the way to [p]. *)
Definition created_dirs (p : Path) (f f' : gmap Path node) : Prop :=
  forall q, f' !! q = f !! q
            \/ (f !! q = None /\ f' !! q = Some (Dir true) /\ ancestor_or_self q p).

(** What logging setup may change in the file system: directories that
    did not exist, on the way to the output directory, and a new [app.log]. *)
Definition setup_created (output_dir : Path) (f f' : gmap Path node) : Prop :=
  forall q,
    f' !! q = f !! q
    \/ (f !! q = None
        /\ ((f' !! q = Some (Dir true) /\ ancestor_or_self q output_dir)
            \/ (f' !! q = Some File /\ q = output_dir </> "app.log"))).

(** The sinks [configure_logging] attaches *)
Definition log_sinks (output_dir : Path) (log_to_console : bool) : list Handler :=
  FileHandler (output_dir </> "app.log")
    :: (if log_to_console then [StreamHandler] else []).

#[global] Instance node_eq_dec : EqDecision node.
Proof. solve_decision. Defined.

(** The pages a run of [pdf_to_pngs] writes, among [pages], when it starts
    in file system [f]: all of them with [overwrite], the missing ones
    without. *)
Definition pages_to_write (overwrite : bool) (f : gmap Path node)
    (pages : list Path) : list Path :=
  filter (fun p => overwrite = true \/ f !! p = None) pages.

(** ** The log records of the program *)

Definition info_record (w : World) (msg : string) : LogRecord :=
  mkLogRecord Logging.INFO msg
    (if root_level w <=? Logging.INFO then root_handlers w else []).

Definition warning_record (w : World) (msg : string) : LogRecord :=
  mkLogRecord Logging.WARNING msg
    (if root_level w <=? Logging.WARNING then root_handlers w else []).

Definition error_record (w : World) (msg : string) : LogRecord :=
  mkLogRecord Logging.ERROR msg
    (if root_level w <=? Logging.ERROR then root_handlers w else []).

Definition skip_record (pdf_path output_dir : Path) (w : World) (i : nat)
    : LogRecord :=
  info_record w ("Skipping existing file: "
                 +:+ PathOps.str (page_path pdf_path output_dir i)).

Definition saved_record (pdf_path output_dir : Path) (w : World) (i : nat)
    : LogRecord :=
  info_record w ("Saved " +:+ PathOps.str (page_path pdf_path output_dir i)).

Definition save_failed_record (pdf_path output_dir : Path) (w : World) (i : nat)
    (e : exn) : LogRecord :=
  error_record w ("Failed to save " +:+ PathOps.str (page_path pdf_path output_dir i)
                  +:+ ": " +:+ exn_str e).

Definition decode_failed_record (w : World) (pdf_path : Path) (message : string)
    : LogRecord :=
  error_record w ("Failed to convert " +:+ PathOps.str pdf_path +:+ ": " +:+ message).

(** ** The batch, as the specification words it *)

Definition failed {A} (r : Outcome A) : bool :=
  match r with Raises _ => true | Returns _ => false end.

(** Every discovered document is converted in turn with [overwrite=False];
    a failure is logged as an error and the next document is taken.  The
    outcomes are collected. *)
Fixpoint batch_outcomes (env : Collaborators) (pdf_files : list Path)
    (output_dir : Path) (w : World) : list (Outcome (list Path)) * World :=
  match pdf_files with
  | [] => ([], w)
  | pdf_file :: rest =>
      let '(r, w1) := pdf_to_pngs env pdf_file output_dir false w in
      let w1' :=
        match r with
        | Raises e => with_log (log w1 ++ [error_record w1 (exn_str e)]) w1
        | Returns _ => w1
        end in
      let '(rs, w2) := batch_outcomes env rest output_dir w1' in
      (r :: rs, w2)
  end.

(** ** A run of the program: [report.pdf] has pages, [notes.pdf] does not
    decode (scenario 6 of the specification) *)

Module Scenario.

Definition In_dir : Path := Root </> "in".
Definition Out_dir : Path := Root </> "out".
Definition report : Path := In_dir </> "report.pdf".
Definition notes : Path := In_dir </> "notes.pdf".

Definition decode_by_name (pages : list Image) (p : Path) : DecodeResult :=
  if String.eqb (PathOps.name p) "report.pdf" then Decoded pages
  else DecodeError PDFSyntaxError "bad pdf".

Definition env : Collaborators :=
  {| decode_pdf := decode_by_name [PageImage 1; PageImage 2];
     save_fault := fun _ _ _ => None;
     module_file := Root </> "app" </> "src" </> "main.py";
     sys_argv_tail := [] |}.

(** The disk fills up when the second page of a three-page document is
    saved. *)
Definition disk_full_env : Collaborators :=
  {| decode_pdf := decode_by_name [PageImage 1; PageImage 2; PageImage 3];
     save_fault := fun _ _ p =>
       if String.eqb (PathOps.name p) "report_page_2.png"
       then Some (OtherOSError "No space left on device") else None;
     module_file := Root </> "app" </> "src" </> "main.py";
     sys_argv_tail := [] |}.

Definition input_files : gmap Path node :=
  <[notes := File]> (<[report := File]> (<[In_dir </> "readme.txt" := File]>
    (<[In_dir := Dir true]> (<[Root := Dir true]> ∅)))).

Definition no_documents : gmap Path node :=
  <[In_dir </> "readme.txt" := File]> (<[In_dir := Dir true]> (<[Root := Dir true]> ∅)).

(** A fresh process: the root logger is at WARNING and has no handler. *)
Definition process (f : gmap Path node) : World := mkWorld f 30 [] [] [].

Definition start : World := process input_files.
Definition out_dir_made : World := process (<[Out_dir := Dir true]> input_files).

Definition args : option (list string) :=
  Some ["--input-dir"; "/in"; "--output-dir"; "/out"].
Definition parsed : Namespace := mkNamespace In_dir Out_dir "INFO" false.

Definition logging_ready (w : World) : World :=
  snd (configure_logging Out_dir "INFO" false w).

End Scenario.

(** ** Further runs: an output directory that already holds a page, and
    one that cannot be written *)

Module Rerun.

(** [/out] holds the first page of [report.pdf] and a file of another
    origin. *)
Definition page_1_there : World :=
  Scenario.process
    (<[Scenario.Out_dir </> "report_page_1.png" := File]>
       (<[Scenario.Out_dir </> "cover.png" := File]>
          (<[Scenario.Out_dir := Dir true]> Scenario.input_files))).

(** [/out] is read-only and holds the log file of an earlier run. *)
Definition read_only_out : World :=
  Scenario.process
    (<[Scenario.Out_dir </> "app.log" := File]>
       (<[Scenario.Out_dir := Dir false]> Scenario.input_files)).

End Rerun.

(** ** Records and the configuration of the root logger *)

(** A record logged while the root logger is configured as in [w]: it
    reached the handlers of [w] when its level passes the threshold of [w],
    and no handler otherwise. *)
Definition dispatched (w : World) (r : LogRecord) : Prop :=
  rec_sinks r = if root_level w <=? rec_level r then root_handlers w else [].

(** The record a run of [pdf_to_pngs] that returned [saved] has logged for
    page [i]. *)
Definition page_record (pdf_path output_dir : Path) (w : World)
    (saved : list Path) (i : nat) : LogRecord :=
  if bool_decide (page_path pdf_path output_dir i ∈ saved)
  then saved_record pdf_path output_dir w i
  else skip_record pdf_path output_dir w i.

(** ** The script *)

(** [if __name__ == "__main__": sys.exit(main())] *)
Definition script (env : Collaborators) : Py unit :=
  exit_code <- main env None ;; raise (SystemExit exit_code).

(** The exit status of the interpreter: the code of the [SystemExit] that
    ended the script; 1 after the traceback of any other exception. *)
Definition exit_status {A} (r : Outcome A) : Z :=
  match r with
  | Returns _ => 0
  | Raises (SystemExit c) => c
  | Raises _ => 1
  end.

(** ** The pages of a document *)

(** The page files of document [pdf_file] in [output_dir], in page order;
    none when the document does not decode. *)
Definition document_pages (env : Collaborators) (output_dir pdf_file : Path)
    : list Path :=
  match decode_pdf env pdf_file with
  | Decoded images => map (page_path pdf_file output_dir) (seq 1 (length images))
  | DecodeError _ _ => []
  end.

(** * Properties *)

Import Scenario.

(** ** Strings and page paths *)

Lemma string_app_length (a b : string) :
  String.length (a +:+ b) = (String.length a + String.length b)%nat.
Proof. induction a as [|c a IH]; simpl; [done | by rewrite IH]. Qed.

Lemma string_app_inj_r (t a b : string) : a +:+ t = b +:+ t -> a = b.
Proof.
  revert b; induction a as [|c a IH]; intros [|c' b] H.
  - done.
  - apply (f_equal String.length) in H.
    rewrite !string_app_length in H. simpl in H. lia.
  - apply (f_equal String.length) in H.
    rewrite !string_app_length in H. simpl in H. lia.
  - simpl in H. injection H as -> H. f_equal. by apply IH.
Qed.

Lemma page_path_inj pdf_path output_dir i j :
  page_path pdf_path output_dir i = page_path pdf_path output_dir j -> i = j.
Proof.
  unfold page_path. intros H. injection H as H.
  apply String.app_inj, String.app_inj, string_app_inj_r in H.
  by apply (inj pretty) in H.
Qed.

Lemma child_neq (d : Path) (n : string) : d </> n <> d.
Proof.
  revert n. induction d as [|d IH m]; intros n; [done|].
  intros H. injection H as H _. by apply IH in H.
Qed.

(** ** Worlds that only grow *)

Lemma fs_extends_refl f : fs_extends f f.
Proof. intros p. by left. Qed.

Lemma fs_extends_trans f1 f2 f3 :
  fs_extends f1 f2 -> fs_extends f2 f3 -> fs_extends f1 f3.
Proof.
  intros H12 H23 p. destruct (H12 p) as [E|[E1 E2]], (H23 p) as [E'|[E1' E2']].
  - left. congruence.
  - right. split; congruence.
  - right. split; congruence.
  - congruence.
Qed.

Lemma fs_extends_insert f p : f !! p = None -> fs_extends f (<[p := File]> f).
Proof.
  intros Hp q. destruct (decide (p = q)) as [<-|Hne].
  - right. by rewrite lookup_insert_eq.
  - left. by rewrite lookup_insert_ne.
Qed.

Lemma fs_extends_Some f f' p x : fs_extends f f' -> f !! p = Some x -> f' !! p = Some x.
Proof. intros H Hp. destruct (H p) as [E|[E _]]; congruence. Qed.

(** Unfolding the monad and the primitives that do not recurse *)
Ltac py_unfold :=
  cbv beta iota zeta delta
    [bind get ret raise modify try_except
     OS.exists_ OS.is_dir OS.access_W_OK OS.open_for_writing OS.mkdir1
     OS.exist_ok_handler OS.glob_suffix
     Logging.info Logging.warning Logging.error Logging.log_
     Logging.setLevel Logging._checkLevel Logging.new_FileHandler
     Logging.remove_all_handlers Logging.basicConfig
     Image_save convert_from_path] in *.

(** ** One page of the loop *)

Section Converter.

Context (env : Collaborators) (pdf_path output_dir : Path) (overwrite : bool).

Local Abbreviation page := (page_path pdf_path output_dir).

(** The outcome of [img.save] is an [OSError] or a new world in which the
    page is a file and is the last image saved. *)
Lemma Image_save_cases img p w :
  (exists k, Image_save env img p w = (Raises (OSError k p), w)) \/
  (exists w', Image_save env img p w = (Returns tt, w')
      /\ fs w' !! p = Some File
      /\ fs_extends (fs w) (fs w')
      /\ (forall q, q <> p -> fs w' !! q = fs w !! q)
      /\ writes w' = (writes w ++ [p])%list
      /\ log w' = log w /\ root_level w' = root_level w
      /\ root_handlers w' = root_handlers w).
Proof.
  py_unfold.
  destruct (save_fault env (fs w) img p) as [k|]; [left; eauto|].
  destruct (fs w !! p) as [[|b]|] eqn:Hp; simpl.
  - right. eexists. split; [done|]. simpl. repeat split; auto using fs_extends_refl.
  - left. eauto.
  - destruct (fs w !! PathOps.parent p) as [[|[|]]|] eqn:Hd; simpl;
      try (left; eauto; fail).
    right. eexists. split; [done|]. simpl.
    rewrite lookup_insert_eq. repeat split; auto using fs_extends_insert.
    intros q Hq. by rewrite lookup_insert_ne.
Qed.

(** One iteration of the loop of [pdf_to_pngs]: skip, save or fail. *)
Lemma save_pages_cons img rest i acc w :
  save_pages env pdf_path output_dir overwrite (img :: rest) i acc w =
    if bool_decide (is_Some (fs w !! page i)) && negb overwrite then
      save_pages env pdf_path output_dir overwrite rest (S i) acc
        (with_log (log w ++ [skip_record pdf_path output_dir w i]) w)
    else
      match Image_save env img (page i) w with
      | (Returns _, w') =>
          save_pages env pdf_path output_dir overwrite rest (S i) (acc ++ [page i])
            (with_log (log w' ++ [saved_record pdf_path output_dir w' i]) w')
      | (Raises (OSError k q), w') =>
          (Raises (PdfConversionError ("Failed to save " +:+ PathOps.str (page i))
                                      (OSError k q)),
           with_log (log w' ++ [save_failed_record pdf_path output_dir w' i (OSError k q)]) w')
      | (Raises e, w') => (Raises e, w')
      end.
Proof.
  cbn [save_pages].
  cbv beta iota zeta delta
    [bind try_except OS.exists_ get ret Logging.info Logging.error Logging.log_
     modify raise].
  destruct (bool_decide (is_Some (fs w !! page i)) && negb overwrite); [done|].
  destruct (Image_save env img (page i) w) as [[[]|e] w']; [done|].
  by destruct e.
Qed.

(** Whatever the loop does, the file system only grows by page files,
    every image it saved is a file afterwards, the paths it returns are the
    ones it was given followed by the ones it saved, and it raises nothing
    but [PdfConversionError] caused by an [OSError]. *)
Lemma save_pages_effects images : forall i acc w r w',
  save_pages env pdf_path output_dir overwrite images i acc w = (r, w') ->
  fs_extends (fs w) (fs w')
  /\ root_level w' = root_level w
  /\ root_handlers w' = root_handlers w
  /\ (exists l, log w' = (log w ++ l)%list)
  /\ exists new,
       writes w' = (writes w ++ new)%list
       /\ Forall (fun q => fs w' !! q = Some File) new
       /\ (forall ps, r = Returns ps -> ps = (acc ++ new)%list)
       /\ (forall e, r = Raises e ->
             exists m k q, e = PdfConversionError m (OSError k q)).
Proof.
  induction images as [|img rest IH]; intros i acc w r w' H.
  - injection H as <- <-. split; [apply fs_extends_refl|].
    do 2 (split; [done|]). split; [exists []; by rewrite app_nil_r|].
    exists []. rewrite !app_nil_r. repeat split; [constructor| |]; by intros ? [=].
  - rewrite save_pages_cons in H.
    destruct (bool_decide (is_Some (fs w !! page i)) && negb overwrite).
    + apply IH in H as (Hfs & Hl & Hh & [l Hlog] & new & Hw & Hnew & Hr & He).
      simpl in *. split; [done|]. do 2 (split; [done|]).
      split; [exists (skip_record pdf_path output_dir w i :: l); by rewrite Hlog, <- app_assoc|].
      exists new. done.
    + destruct (Image_save_cases img (page i) w) as [[k Hs]|(w1 & Hs & Hp & Hext & _ & Hw1 & Hl1 & Hlv1 & Hh1)];
        rewrite Hs in H.
      * injection H as <- <-. simpl. split; [apply fs_extends_refl|].
        do 2 (split; [done|]). split; [eauto|].
        exists []. rewrite !app_nil_r. repeat split; [constructor|by intros ? [=]|].
        intros e [= <-]. eauto.
      * apply IH in H as (Hfs & Hl & Hh & [l Hlog] & new & Hw & Hnew & Hr & He).
        simpl in *. split; [by eapply fs_extends_trans|].
        split; [congruence|]. split; [congruence|].
        split; [exists (saved_record pdf_path output_dir w1 i :: l); by rewrite Hlog, Hl1, <- app_assoc|].
        exists (page i :: new). rewrite Hw, Hw1, <- app_assoc. split; [done|].
        split; [|split; [|done]].
        -- constructor; [|done]. by eapply fs_extends_Some.
        -- intros ps Hps. rewrite (Hr ps Hps), <- app_assoc. done.
Qed.

(** After a run of the loop that returns, every page it went over exists. *)
Lemma save_pages_returns_exist images : forall i acc w ps w',
  save_pages env pdf_path output_dir overwrite images i acc w = (Returns ps, w') ->
  forall j, (i <= j < i + length images)%nat -> is_Some (fs w' !! page j).
Proof.
  induction images as [|img rest IH]; intros i acc w ps w' H j Hj; simpl in Hj.
  - lia.
  - rewrite save_pages_cons in H.
    destruct (bool_decide (is_Some (fs w !! page i)) && negb overwrite) eqn:Hskip.
    + destruct (decide (j = i)) as [->|Hne].
      * apply andb_prop in Hskip as [Hex _]. apply bool_decide_eq_true in Hex.
        apply save_pages_effects in H as (Hfs & _). simpl in Hfs.
        destruct Hex as [x Hx]. exists x. by eapply fs_extends_Some.
      * eapply IH; [exact H|lia].
    + destruct (Image_save_cases img (page i) w) as [[k Hs]|(w1 & Hs & Hp & _)];
        rewrite Hs in H; [done|].
      destruct (decide (j = i)) as [->|Hne].
      * apply save_pages_effects in H as (Hfs & _). simpl in Hfs.
        exists File. by eapply fs_extends_Some.
      * eapply IH; [exact H|lia].
Qed.

(** With [overwrite=False], pages that all exist are all skipped: nothing
    is saved, nothing is returned beyond [acc], one record per page is
    logged. *)
Lemma save_pages_all_skipped images : forall i acc w,
  overwrite = false ->
  (forall j, (i <= j < i + length images)%nat -> is_Some (fs w !! page j)) ->
  exists w',
    save_pages env pdf_path output_dir overwrite images i acc w = (Returns acc, w')
    /\ fs w' = fs w /\ writes w' = writes w
    /\ root_level w' = root_level w /\ root_handlers w' = root_handlers w
    /\ log w' = (log w ++ map (skip_record pdf_path output_dir w) (seq i (length images)))%list.
Proof.
  induction images as [|img rest IH]; intros i acc w Hov Hex.
  - exists w. simpl. by rewrite app_nil_r.
  - rewrite save_pages_cons.
    assert (bool_decide (is_Some (fs w !! page i)) && negb overwrite = true) as ->.
    { rewrite Hov, andb_true_r. apply bool_decide_eq_true, Hex. simpl. lia. }
    destruct (IH (S i) acc (with_log (log w ++ [skip_record pdf_path output_dir w i]) w))
      as (w' & Hrun & Hfs & Hw & Hl & Hh & Hlog); [done| |].
    { intros j Hj. simpl. apply Hex. simpl. lia. }
    exists w'. split; [done|]. simpl in *. do 4 (split; [done|]).
    rewrite Hlog, <- app_assoc. done.
Qed.

(** The loop over [pre ++ post] is the loop over [pre] followed by the loop
    over [post]. *)
Lemma save_pages_app pre post : forall i acc w,
  save_pages env pdf_path output_dir overwrite (pre ++ post) i acc w =
    match save_pages env pdf_path output_dir overwrite pre i acc w with
    | (Returns ps, w1) =>
        save_pages env pdf_path output_dir overwrite post (i + length pre) ps w1
    | (Raises e, w1) => (Raises e, w1)
    end.
Proof.
  induction pre as [|img rest IH]; intros i acc w.
  - simpl. by rewrite Nat.add_0_r.
  - rewrite <- app_comm_cons, !save_pages_cons. simpl length.
    replace (i + S (length rest))%nat with (S i + length rest)%nat by lia.
    destruct (bool_decide (is_Some (fs w !! page i)) && negb overwrite); [apply IH|].
    destruct (Image_save env img (page i) w) as [[[]|e] w1]; [apply IH|].
    by destruct e.
Qed.

(** In an empty, writable output directory with a fault-free encoder every
    page is saved. *)
Lemma save_pages_fresh images : forall i acc w,
  fs w !! output_dir = Some (Dir true) ->
  (forall j, (i <= j)%nat -> fs w !! page j = None) ->
  (forall f k img, images !! k = Some img ->
                   save_fault env f img (page (i + k)) = None) ->
  exists w',
    save_pages env pdf_path output_dir overwrite images i acc w =
      (Returns (acc ++ map page (seq i (length images)))%list, w')
    /\ writes w' = (writes w ++ map page (seq i (length images)))%list
    /\ (forall p, fs w' !! p =
                  if decide (p ∈ map page (seq i (length images)))
                  then Some File else fs w !! p).
Proof.
  induction images as [|img rest IH]; intros i acc w Hdir Hfree Hok.
  - exists w. simpl. rewrite !app_nil_r. split; [done|]. split; [done|].
    done.
  - rewrite save_pages_cons.
    assert (fs w !! page i = None) as Hi by (apply Hfree; lia).
    rewrite Hi. replace (bool_decide (is_Some None)) with false
      by (symmetry; apply bool_decide_eq_false; by intros [? ?]).
    cbn [andb].
    assert (Image_save env img (page i) w =
            (Returns tt, with_writes (writes w ++ [page i])
                           (with_fs (<[page i := File]> (fs w)) w))) as ->.
    { pose proof (Hok (fs w) 0%nat img eq_refl) as H0.
      rewrite Nat.add_0_r in H0. py_unfold. rewrite H0, Hi.
      cbn [PathOps.parent page_path]. by rewrite Hdir. }
    edestruct (IH (S i) (acc ++ [page i])%list) as (w' & Hrun & Hw & Hfs);
      [| | |rewrite Hrun].
    + simpl. rewrite lookup_insert_ne; [done|]. apply child_neq.
    + intros j Hj. simpl. rewrite lookup_insert_ne; [apply Hfree; lia|].
      intros E%page_path_inj. lia.
    + intros f k img' Hk. replace (S i + k)%nat with (i + S k)%nat by lia.
      by apply Hok.
    + exists w'. simpl in *. rewrite <- !app_assoc. rewrite <- app_assoc in Hw.
      split; [done|]. split; [done|].
      intros p. rewrite Hfs. destruct (decide (p = page i)) as [->|Hne].
      * rewrite lookup_insert_eq, (decide_True (P := _ ∈ _ :: _)) by left.
        by destruct (decide _).
      * rewrite lookup_insert_ne by done.
        destruct (decide (p ∈ map page (seq (S i) (length rest)))) as [Hin|Hout].
        -- by rewrite decide_True by by right.
        -- rewrite decide_False; [done|]. by intros [?|?]%elem_of_cons.
Qed.

End Converter.

(** ** [pdf_to_pngs] *)

Lemma pdf_to_pngs_decoded env pdf_path output_dir overwrite images w :
  decode_pdf env pdf_path = Decoded images ->
  pdf_to_pngs env pdf_path output_dir overwrite w =
    save_pages env pdf_path output_dir overwrite images 1 [] w.
Proof.
  intros H. unfold pdf_to_pngs.
  cbv beta iota zeta delta [bind try_except convert_from_path ret].
  by rewrite H.
Qed.

Lemma pdf_to_pngs_decode_error env pdf_path output_dir overwrite kind message w :
  decode_pdf env pdf_path = DecodeError kind message ->
  pdf_to_pngs env pdf_path output_dir overwrite w =
    (Raises (PdfConversionError
               ("PDF conversion failed for " +:+ PathOps.str pdf_path)
               (Pdf2ImageError kind message)),
     with_log (log w ++ [decode_failed_record w pdf_path message]) w).
Proof.
  intros H. unfold pdf_to_pngs. py_unfold. by rewrite H.
Qed.

(** [pdf_to_pngs] returns or raises [PdfConversionError]; it changes the
    file system only by adding page files. *)
Lemma pdf_to_pngs_effects env pdf_path output_dir overwrite w r w' :
  pdf_to_pngs env pdf_path output_dir overwrite w = (r, w') ->
  fs_extends (fs w) (fs w')
  /\ root_level w' = root_level w
  /\ root_handlers w' = root_handlers w
  /\ (exists l, log w' = (log w ++ l)%list)
  /\ (exists new, writes w' = (writes w ++ new)%list
                  /\ Forall (fun q => fs w' !! q = Some File) new
                  /\ (forall ps, r = Returns ps -> ps = new))
  /\ (forall e, r = Raises e -> exists m c, e = PdfConversionError m c).
Proof.
  destruct (decode_pdf env pdf_path) as [images|k m] eqn:Hd.
  - rewrite (pdf_to_pngs_decoded _ _ _ _ _ _ Hd). intros H.
    apply save_pages_effects in H
      as (Hfs & Hl & Hh & Hlog & new & Hw & Hnew & Hr & He).
    repeat (split; [done|]). split; [by exists new|].
    intros e Hraise. destruct (He e Hraise) as (m & k & q & ->). eauto.
  - rewrite (pdf_to_pngs_decode_error _ _ _ _ _ _ _ Hd). intros [= <- <-].
    simpl. split; [apply fs_extends_refl|]. do 2 (split; [done|]).
    split; [eauto|]. split.
    + exists []. rewrite app_nil_r. repeat split; [constructor|by intros ? [=]].
    + intros e [= <-]. eauto.
Qed.

(** C1. For a document that decodes into N pages, converted into an output
    directory that exists, is writable and has no entry, with an encoder
    that reports no fault for these pages, [pdf_to_pngs] saves exactly the N
    files [{stem}_page_1.png] ... [{stem}_page_N.png], in this order, and
    returns exactly these N paths in this order; afterwards these N paths
    are files and every other path is as before. *)
Theorem convert_writes_one_file_per_page
    env pdf_path output_dir overwrite images w :
  decode_pdf env pdf_path = Decoded images ->
  fs w !! output_dir = Some (Dir true) ->
  (forall name, fs w !! (output_dir </> name) = None) ->
  (forall f k img, images !! k = Some img ->
     save_fault env f img (page_path pdf_path output_dir (S k)) = None) ->
  let pages := map (page_path pdf_path output_dir) (seq 1 (length images)) in
  exists w',
    pdf_to_pngs env pdf_path output_dir overwrite w = (Returns pages, w')
    /\ writes w' = (writes w ++ pages)%list
    /\ (forall p, fs w' !! p = if decide (p ∈ pages) then Some File else fs w !! p)
    /\ length pages = length images
    /\ NoDup pages.
Proof.
  intros Hd Hdir Hempty Hok pages.
  rewrite (pdf_to_pngs_decoded _ _ _ _ _ _ Hd).
  destruct (save_pages_fresh env pdf_path output_dir overwrite images 1 [] w)
    as (w' & Hrun & Hw & Hfs); [done| |done|].
  { intros j _. apply Hempty. }
  exists w'. split; [done|]. split; [done|]. split; [done|]. split.
  - unfold pages. by rewrite length_map, length_seq.
  - unfold pages. apply NoDup_fmap_2; [|apply NoDup_seq].
    intros i j. apply page_path_inj.
Qed.

(** C2. When a run of [pdf_to_pngs] with [overwrite=False] has returned, a
    second run on the same document and output directory, started where
    the first one ended, saves nothing and returns the empty list: the file
    system is unchanged and the log gains one skip record per page. *)
Theorem convert_again_skips_every_page env pdf_path output_dir w paths w1 :
  pdf_to_pngs env pdf_path output_dir false w = (Returns paths, w1) ->
  exists w2 images,
    decode_pdf env pdf_path = Decoded images
    /\ pdf_to_pngs env pdf_path output_dir false w1 = (Returns [], w2)
    /\ writes w2 = writes w1
    /\ fs w2 = fs w1
    /\ log w2 = (log w1 ++ map (skip_record pdf_path output_dir w1)
                             (seq 1 (length images)))%list.
Proof.
  intros H1.
  destruct (decode_pdf env pdf_path) as [images|k m] eqn:Hd.
  - rewrite (pdf_to_pngs_decoded _ _ _ _ _ w Hd) in H1.
    rewrite (pdf_to_pngs_decoded _ _ _ _ _ w1 Hd).
    pose proof (save_pages_returns_exist _ _ _ _ _ _ _ _ _ _ H1) as Hex.
    destruct (save_pages_all_skipped env pdf_path output_dir false images 1 [] w1)
      as (w2 & Hrun & Hfs & Hw & _ & _ & Hlog); [done|done|].
    exists w2, images. done.
  - by rewrite (pdf_to_pngs_decode_error _ _ _ _ _ _ _ Hd) in H1.
Qed.

(** C7. When the decode step fails with one of the three [pdf2image]
    exceptions (renderer not installed, page count unreadable, malformed
    document), [pdf_to_pngs] logs an error record with the document path and
    the reason, then raises [PdfConversionError] whose cause is that
    exception; it saves no image and leaves the file system as it was. *)
Theorem convert_decode_failure env pdf_path output_dir overwrite kind message w :
  decode_pdf env pdf_path = DecodeError kind message ->
  exists w',
    pdf_to_pngs env pdf_path output_dir overwrite w =
      (Raises (PdfConversionError
                 ("PDF conversion failed for " +:+ PathOps.str pdf_path)
                 (Pdf2ImageError kind message)), w')
    /\ log w' = (log w ++ [decode_failed_record w pdf_path message])%list
    /\ rec_level (decode_failed_record w pdf_path message) = Logging.ERROR
    /\ rec_msg (decode_failed_record w pdf_path message) =
         "Failed to convert " +:+ PathOps.str pdf_path +:+ ": " +:+ message
    /\ writes w' = writes w
    /\ fs w' = fs w.
Proof.
  intros Hd. rewrite (pdf_to_pngs_decode_error _ _ _ _ _ _ _ Hd).
  eexists. split; [done|]. done.
Qed.

(** C8. When the pages before page i went through (saved or skipped) and
    saving page i raises, the exception is an [OSError], and [pdf_to_pngs]
    logs the error and raises [PdfConversionError] caused by it at once: no
    later page is tried, the file system is as the earlier pages left it,
    and the pages saved in the earlier iterations are still files. *)
Theorem convert_save_failure_keeps_earlier_pages
    env pdf_path output_dir overwrite before img after w written w1 e :
  decode_pdf env pdf_path = Decoded (before ++ img :: after) ->
  save_pages env pdf_path output_dir overwrite before 1 [] w = (Returns written, w1) ->
  let output_path := page_path pdf_path output_dir (S (length before)) in
  (is_Some (fs w1 !! output_path) -> overwrite = true) ->
  fst (Image_save env img output_path w1) = Raises e ->
  exists k w2,
    e = OSError k output_path
    /\ pdf_to_pngs env pdf_path output_dir overwrite w =
         (Raises (PdfConversionError ("Failed to save " +:+ PathOps.str output_path) e),
          w2)
    /\ fs w2 = fs w1
    /\ writes w2 = (writes w ++ written)%list
    /\ Forall (fun q => fs w2 !! q = Some File) written
    /\ log w2 = (log w1 ++ [save_failed_record pdf_path output_dir w1
                              (S (length before)) e])%list.
Proof.
  intros Hd Hpre output_path Hnoskip Hfail.
  destruct (Image_save_cases env img output_path w1) as [[k Hs]|(w' & Hs & _)];
    rewrite Hs in Hfail; [|done].
  injection Hfail as <-. exists k.
  rewrite (pdf_to_pngs_decoded _ _ _ _ _ _ Hd), save_pages_app, Hpre.
  change (1 + length before)%nat with (S (length before)).
  rewrite save_pages_cons. fold output_path.
  assert (bool_decide (is_Some (fs w1 !! output_path)) && negb overwrite = false)
    as ->.
  { destruct (bool_decide (is_Some (fs w1 !! output_path))) eqn:E; [|done].
    apply bool_decide_eq_true in E. by rewrite (Hnoskip E). }
  rewrite Hs. eexists. split; [done|]. split; [done|]. simpl.
  apply save_pages_effects in Hpre as (_ & _ & _ & _ & new & Hw & Hnew & Hr & _).
  rewrite (Hr written eq_refl). simpl. done.
Qed.

(** ** Directories and logging setup *)

Lemma created_dirs_grows p f f' : created_dirs p f f' -> fs_grows f f'.
Proof. intros H q x Hq. destruct (H q) as [E|[E _]]; congruence. Qed.

Lemma created_dirs_refl p f : created_dirs p f f.
Proof. intros q. by left. Qed.

Lemma mkdir1_cases p w :
  (exists k, OS.mkdir1 p w = (Raises (OSError k p), w)
             /\ (k = FileNotFoundError -> fs w !! p = None)
             /\ (fs w !! p = None -> k <> FileExistsError))
  \/ (OS.mkdir1 p w = (Returns tt, with_fs (<[p := Dir true]> (fs w)) w)
      /\ fs w !! p = None).
Proof.
  py_unfold. destruct (fs w !! p) as [x|] eqn:Hp.
  - left. exists FileExistsError. by split_and!.
  - destruct p as [|d n]; [left; exists FileNotFoundError; by split_and!|].
    destruct (fs w !! d) as [[|[|]]|]; [left|right|left|left];
      [eexists; by split_and!|done|eexists; by split_and!..].
Qed.

Lemma exist_ok_cases p k q w r w' :
  (match OS.exist_ok_handler p (OSError k q) with
   | Some h => h w
   | None => (Raises (OSError k q), w)
   end) = (r, w') ->
  w' = w /\ ((r = Returns tt /\ exists b, fs w !! p = Some (Dir b))
             \/ r = Raises (OSError k q)).
Proof.
  py_unfold. destruct (fs w !! p) as [[|b]|] eqn:E; intros [= <- <-]; eauto.
Qed.

Lemma same_process_state_refl w : same_process_state w w.
Proof. done. Qed.

Lemma fs_grows_refl f : fs_grows f f.
Proof. by intros p x. Qed.

Lemma fs_grows_insert f p x : f !! p = None -> fs_grows f (<[p := x]> f).
Proof.
  intros Hp q y Hq. rewrite lookup_insert_ne; [done|]. congruence.
Qed.

Lemma fs_grows_trans f1 f2 f3 : fs_grows f1 f2 -> fs_grows f2 f3 -> fs_grows f1 f3.
Proof. intros H1 H2 p x Hp. by apply H2, H1. Qed.

Lemma mkdir_parents_effects p : forall w r w',
  OS.mkdir_parents p w = (r, w') ->
  same_process_state w w'
  /\ created_dirs p (fs w) (fs w')
  /\ (r = Returns tt -> exists b, fs w' !! p = Some (Dir b))
  /\ (forall e, r = Raises e -> exists k q, e = OSError k q).
Proof.
  assert (forall q w r w',
    w' = w /\ ((r = Returns tt /\ exists b, fs w !! q = Some (Dir b))
               \/ exists k q', r = Raises (OSError k q')) ->
    same_process_state w w' /\ created_dirs q (fs w) (fs w')
    /\ (r = Returns tt -> exists b, fs w' !! q = Some (Dir b))
    /\ (forall e, r = Raises e -> exists k q, e = OSError k q)) as Hfin.
  { intros q w r w' [-> [[-> Hb]|(k & q' & ->)]];
      (split; [done|]); (split; [apply created_dirs_refl|]); split; try done.
    intros e [= <-]. eauto. }
  induction p as [|d IH n]; intros w r w'; cbn [OS.mkdir_parents];
    unfold try_except at 1.
  - destruct (mkdir1_cases Root w) as [(k & -> & Hk & _)|[H Hnone]].
    + destruct k; try (intros [Hw Hr]%exist_ok_cases; apply Hfin; split; [done|];
                      destruct Hr as [Hr|Hr]; [by left|right; eauto]).
      intros [= <- <-]. apply Hfin. eauto.
    + revert H. py_unfold. by rewrite Hnone.
  - destruct (mkdir1_cases (d </> n) w) as [(k & -> & Hk & Hk')|[-> Hnone]].
    + destruct k; try (intros [Hw Hr]%exist_ok_cases; apply Hfin; split; [done|];
                      destruct Hr as [Hr|Hr]; [by left|right; eauto]).
      specialize (Hk eq_refl).
      unfold bind at 1.
      destruct (OS.mkdir_parents d w) as [[[]|e] w1] eqn:Hd.
      * apply IH in Hd as ((Hl & Hh & Hlog & Hw) & Hg & Hdir & _).
        assert (created_dirs (d </> n) (fs w) (fs w1)) as Hg1.
        { intros q. destruct (Hg q) as [E|(E1 & E2 & E3)]; [by left|].
          right. split_and!; [done..|by right]. }
        unfold try_except.
        destruct (mkdir1_cases (d </> n) w1) as [(k & -> & Hk1 & _)|[-> Hn1]].
        -- assert (forall r w',
                     w' = w1 /\ ((r = Returns tt /\ exists b, fs w1 !! (d </> n) = Some (Dir b))
                                 \/ exists k q', r = Raises (OSError k q')) ->
                     same_process_state w w' /\ created_dirs (d </> n) (fs w) (fs w')
                     /\ (r = Returns tt -> exists b, fs w' !! (d </> n) = Some (Dir b))
                     /\ (forall e, r = Raises e -> exists k q, e = OSError k q)) as Hfin1.
           { intros r0 w0 [-> [[-> Hb]|(k0 & q' & ->)]];
               (split; [done|]); (split; [done|]); split; try done.
             intros e [= <-]. eauto. }
           destruct k; try (intros [Hw1 Hr]%exist_ok_cases; apply Hfin1; split; [done|];
                      destruct Hr as [Hr|Hr]; [by left|right; eauto]).
           intros [= <- <-]. apply Hfin1. eauto.
        -- intros [= <- <-]. simpl. split; [done|]. split; [|split].
           ++ intros q. destruct (decide (q = d </> n)) as [->|Hne].
              ** right. rewrite lookup_insert_eq. split_and!; [done..|by left].
              ** rewrite lookup_insert_ne by done. apply Hg1.
           ++ intros _. rewrite lookup_insert_eq. eauto.
           ++ done.
      * intros [= <- <-]. apply IH in Hd as (Hs & Hg & _ & He).
        split; [done|]. split; [|split; [done|]].
        -- intros q. destruct (Hg q) as [E|(E1 & E2 & E3)]; [by left|].
           right. split_and!; [done..|by right].
        -- intros e' [= <-]. by apply He.
    + intros [= <- <-]. simpl. split; [done|]. split; [|split].
      * intros q. destruct (decide (q = d </> n)) as [->|Hne].
        -- right. rewrite lookup_insert_eq. split_and!; [done..|by left].
        -- left. by rewrite lookup_insert_ne.
      * intros _. rewrite lookup_insert_eq. eauto.
      * done.
Qed.

(** [mkdir(parents=True, exist_ok=True)] on a directory that exists does
    nothing. *)
Lemma mkdir_parents_existing p b w :
  fs w !! p = Some (Dir b) -> OS.mkdir_parents p w = (Returns tt, w).
Proof.
  intros Hp. destruct p as [|d n]; cbn [OS.mkdir_parents]; py_unfold;
    by rewrite !Hp.
Qed.

Lemma fs_extends_grows f f' : fs_extends f f' -> fs_grows f f'.
Proof. intros H p x Hp. by eapply fs_extends_Some. Qed.

Lemma open_for_writing_cases p w :
  (exists k, OS.open_for_writing p w = (Raises (OSError k p), w))
  \/ (exists w', OS.open_for_writing p w = (Returns tt, w')
        /\ fs w' !! p = Some File
        /\ fs_extends (fs w) (fs w')
        /\ (forall q, q <> p -> fs w' !! q = fs w !! q)
        /\ same_process_state w w').
Proof.
  py_unfold. destruct (fs w !! p) as [[|b]|] eqn:Hp.
  - right. exists w. split_and!; auto using fs_extends_refl, same_process_state_refl.
  - left. eauto.
  - destruct (fs w !! PathOps.parent p) as [[|[|]]|]; try (left; eauto; fail).
    right. eexists. split; [done|]. simpl. rewrite lookup_insert_eq.
    split_and!; try done; [by apply fs_extends_insert|].
    intros q Hq. by rewrite lookup_insert_ne.
Qed.

Lemma getattr_cases name d :
  (exists n, Logging.getattr name (Logging.AttrInt d) = Logging.AttrInt n)
  \/ Logging.getattr name (Logging.AttrInt d)
       = Logging.AttrStr "%(levelname)s:%(name)s:%(message)s"
  \/ Logging.getattr name (Logging.AttrInt d) = Logging.AttrDict.
Proof.
  unfold Logging.getattr, Logging.module_attrs. cbn [Str.assoc].
  repeat (destruct (String.eqb name _); [eauto|]). eauto.
Qed.

Lemma setup_created_grows d f f' : setup_created d f f' -> fs_grows f f'.
Proof. intros H q x Hq. destruct (H q) as [E|[E _]]; congruence. Qed.

(** What [configure_logging] has done when it returns: the output
    directory exists, [app.log] is a file in it, the root logger has the
    file sink (and the console sink when asked for) and an integer level;
    nothing was logged and no image saved. *)
Lemma configure_logging_returns output_dir log_level log_to_console w w1 :
  configure_logging output_dir log_level log_to_console w = (Returns tt, w1) ->
  setup_created output_dir (fs w) (fs w1)
  /\ (exists b, fs w1 !! output_dir = Some (Dir b))
  /\ fs w1 !! (output_dir </> "app.log") = Some File
  /\ log w1 = log w /\ writes w1 = writes w
  /\ root_handlers w1 = log_sinks output_dir log_to_console
  /\ Logging.getattr (Str.upper log_level) (Logging.AttrInt Logging.INFO)
       = Logging.AttrInt (root_level w1).
Proof.
  unfold configure_logging. unfold bind at 1.
  destruct (OS.mkdir_parents output_dir w) as [[[]|e] wa] eqn:Hmk; [|done].
  apply mkdir_parents_effects in Hmk as ((Hl & Hh & Hlog & Hw) & Hg & Hdir & _).
  destruct (Hdir eq_refl) as [b Hb].
  unfold bind at 1, Logging.new_FileHandler. unfold bind at 1.
  destruct (open_for_writing_cases (output_dir </> "app.log") wa)
    as [[k ->]|(wb & -> & Hfile & Hext & Hother & (Hl' & Hh' & Hlog' & Hw'))]; [done|].
  py_unfold. cbn [with_root_handlers root_handlers].
  destruct (getattr_cases (Str.upper log_level) Logging.INFO)
    as [[n Hattr]|[Hattr|Hattr]]; rewrite Hattr; [|done..].
  intros [= <-]. simpl. split_and!; try congruence.
  - intros q. destruct (Hg q) as [E|(E1 & E2 & E3)].
    + destruct (decide (q = output_dir </> "app.log")) as [->|Hne].
      * destruct (fs wa !! (output_dir </> "app.log")) as [x|] eqn:Hx.
        -- left. rewrite <- E. by eapply fs_extends_Some.
        -- right. split; [congruence|]. by right.
      * left. rewrite <- E. by apply Hother.
    + right. split; [done|]. left. split; [|done].
      by eapply fs_extends_Some.
  - exists b. by eapply fs_extends_Some.
  - done.
Qed.

(** [configure_logging] logs nothing and saves nothing, also when it
    raises. *)
Lemma configure_logging_silent output_dir log_level log_to_console w r w1 :
  configure_logging output_dir log_level log_to_console w = (r, w1) ->
  log w1 = log w /\ writes w1 = writes w.
Proof.
  unfold configure_logging. unfold bind at 1.
  destruct (OS.mkdir_parents output_dir w) as [[[]|e] wa] eqn:Hmk;
    apply mkdir_parents_effects in Hmk as ((Hl & Hh & Hlog & Hw) & _);
    [|by intros [= <- <-]].
  unfold bind at 1, Logging.new_FileHandler. unfold bind at 1.
  destruct (open_for_writing_cases (output_dir </> "app.log") wa)
    as [[k ->]|(wb & -> & Hfile & Hext & Hother & (Hl' & Hh' & Hlog' & Hw'))];
    [by intros [= <- <-]|].
  py_unfold. cbn [with_root_handlers root_handlers].
  destruct (Logging.getattr _ _) as [n|s|].
  - intros [= <- <-]. simpl. split; congruence.
  - destruct (Str.assoc s Logging._nameToLevel); intros [= <- <-]; simpl;
      split; congruence.
  - intros [= <- <-]. simpl. split; congruence.
Qed.

(** When the directory cannot be created, [configure_logging] raises what
    [mkdir] raised. *)
Lemma configure_logging_mkdir_error output_dir log_level log_to_console w e w' :
  OS.mkdir_parents output_dir w = (Raises e, w') ->
  configure_logging output_dir log_level log_to_console w = (Raises e, w').
Proof. intros H. unfold configure_logging. unfold bind at 1. by rewrite H. Qed.

(** ** [main] *)

Section Orchestrator.

Context (env : Collaborators).

Lemma parse_args_world args w : snd (parse_args env args w) = w.
Proof. done. Qed.

Lemma main_parse_error args w e :
  fst (parse_args env args w) = Raises e -> main env args w = (Raises e, w).
Proof.
  unfold main. unfold bind at 1.
  destruct (parse_args env args w) as [[ns|e'] w'] eqn:H; [done|].
  pose proof (parse_args_world args w) as Hw. rewrite H in Hw. simpl in *.
  congruence.
Qed.

Lemma main_setup_error args w ns e w1 :
  parse_args env args w = (Returns ns, w) ->
  configure_logging (output_dir ns) (log_level ns) (log_to_console ns) w
    = (Raises e, w1) ->
  main env args w = (Raises e, w1).
Proof.
  intros Hp Hc. unfold main. unfold bind at 1. rewrite Hp.
  unfold bind at 1. by rewrite Hc.
Qed.

(** Once the arguments are parsed and logging is set up, [main] is decided
    by the input directory, the write permission on the output directory
    and the documents found.  The guarded [mkdir] of [main] finds the
    directory that [configure_logging] made. *)
Lemma main_after_setup args w ns w1 :
  parse_args env args w = (Returns ns, w) ->
  configure_logging (output_dir ns) (log_level ns) (log_to_console ns) w
    = (Returns tt, w1) ->
  main env args w =
    match OS.is_dir (input_dir ns) w1, OS.access_W_OK (output_dir ns) w1,
          OS.glob_suffix (input_dir ns) ".pdf" w1 with
    | (Returns false, _), _, _ =>
        (Returns 1,
         with_log (log w1 ++ [error_record w1
           ("Input directory does not exist: " +:+ PathOps.str (input_dir ns))]) w1)
    | (Returns true, _), (Returns false, _), _ =>
        (Returns 1,
         with_log (log w1 ++ [error_record w1
           ("Output directory is not writable: " +:+ PathOps.str (output_dir ns))]) w1)
    | (Returns true, _), (Returns true, _), (Returns [], _) =>
        (Returns 0,
         with_log (log w1 ++ [warning_record w1
           ("No PDF files found in " +:+ PathOps.str (input_dir ns))]) w1)
    | (Returns true, _), (Returns true, _), (Returns pdf_files, _) =>
        convert_all env pdf_files (output_dir ns) 0 w1
    | _, _, _ => (Raises (SystemExit 1), w1)
    end.
Proof.
  intros Hp Hc. unfold main. unfold bind at 1. rewrite Hp.
  unfold bind at 1. rewrite Hc.
  apply configure_logging_returns in Hc as (_ & [b Hb] & _).
  cbv beta iota zeta delta
    [bind get ret raise try_except modify OS.is_dir OS.access_W_OK OS.glob_suffix
     Logging.error Logging.warning Logging.log_ error_record warning_record].
  destruct (fs w1 !! input_dir ns) as [[|bi]|]; cbn [negb]; [done| |done].
  rewrite (mkdir_parents_existing _ _ _ Hb). cbn [negb].
  rewrite Hb. destruct b; cbn [negb]; [|done].
  by destruct (filter _ _).
Qed.

(** [pdf_to_pngs] inside the loop of [main] *)
Lemma convert_all_outcomes pdf_files output_dir : forall exit_code w,
  convert_all env pdf_files output_dir exit_code w =
    (Returns (if existsb failed (batch_outcomes env pdf_files output_dir w).1
              then 1 else exit_code),
     (batch_outcomes env pdf_files output_dir w).2).
Proof.
  induction pdf_files as [|f rest IH]; intros exit_code w; [done|].
  cbn [convert_all batch_outcomes].
  unfold bind at 1, try_except at 1. unfold bind at 1.
  destruct (pdf_to_pngs env f output_dir false w) as [[ps|e] w1] eqn:Hrun.
  - cbv beta iota zeta delta [ret]. rewrite IH.
    by destruct (batch_outcomes env rest output_dir w1).
  - apply pdf_to_pngs_effects in Hrun as (_ & _ & _ & _ & _ & He).
    destruct (He e eq_refl) as (m & c & ->).
    cbv beta iota zeta delta [bind ret Logging.error Logging.log_ modify].
    rewrite IH. fold (error_record w1 (exn_str (PdfConversionError m c))).
    destruct (batch_outcomes env rest output_dir _) as [rs w2]. simpl.
    by destruct (existsb failed rs).
Qed.



(** No entry of the directory ends in [.pdf]: [glob] finds nothing. *)
Lemma glob_suffix_none d suffix w :
  (forall name, is_Some (fs w !! (d </> name)) -> Str.endswith suffix name = false) ->
  OS.glob_suffix d suffix w = (Returns [], w).
Proof.
  intros H. unfold OS.glob_suffix. cbv beta iota zeta delta [bind get ret].
  destruct (filter _ _) as [|p l] eqn:E; [done|exfalso].
  assert (p ∈ p :: l) as Hp by left. rewrite <- E in Hp.
  apply list_elem_of_filter in Hp as [Hsuf Hp]. unfold OS.scandir in Hp.
  apply list_elem_of_filter in Hp as [[Hroot Hpar] Hin].
  apply list_elem_of_fmap in Hin as ([q x] & -> & Hqx).
  apply elem_of_map_to_list in Hqx. simpl in *.
  destruct q as [|d' name]; [done|]. simpl in *. subst d'.
  rewrite H in Hsuf; [done|]. by exists x.
Qed.


(** C4, as the code has it. When the arguments parse, logging setup
    succeeds and the input directory is not a directory once logging is set
    up, [main] logs an error and returns 1; it saves no image, and what it
    leaves in the file system is what logging setup made: the output
    directory with its missing parents, and [app.log]. *)
Theorem main_missing_input_dir args w ns w1 :
  parse_args env args w = (Returns ns, w) ->
  configure_logging (output_dir ns) (log_level ns) (log_to_console ns) w
    = (Returns tt, w1) ->
  OS.is_dir (input_dir ns) w1 = (Returns false, w1) ->
  exists w2,
    main env args w = (Returns 1, w2)
    /\ writes w2 = writes w
    /\ fs w2 = fs w1
    /\ setup_created (output_dir ns) (fs w) (fs w2)
    /\ fs w2 !! (output_dir ns </> "app.log") = Some File
    /\ log w2 = (log w ++ [error_record w1
          ("Input directory does not exist: " +:+ PathOps.str (input_dir ns))])%list.
Proof.
  intros Hp Hc Hdir.
  rewrite (main_after_setup _ _ _ _ Hp Hc), Hdir.
  apply configure_logging_returns in Hc as (Hcr & _ & Hlog & Hl & Hw & _).
  eexists. split; [done|]. simpl. split_and!; try done. by rewrite Hl.
Qed.

(** C9. When the arguments parse, logging setup succeeds, the input
    directory is there, the output directory is writable and no entry of
    the input directory has a name that ends in [.pdf] (byte for byte, the
    directory's own entries only), [main] logs a warning that no PDF files
    were found and returns 0; it saves no image and leaves the file system
    as logging setup left it. *)
Theorem main_no_documents args w ns w1 :
  parse_args env args w = (Returns ns, w) ->
  configure_logging (output_dir ns) (log_level ns) (log_to_console ns) w
    = (Returns tt, w1) ->
  OS.is_dir (input_dir ns) w1 = (Returns true, w1) ->
  OS.access_W_OK (output_dir ns) w1 = (Returns true, w1) ->
  (forall name, is_Some (fs w1 !! (input_dir ns </> name)) ->
                Str.endswith ".pdf" name = false) ->
  exists w2,
    main env args w = (Returns 0, w2)
    /\ writes w2 = writes w
    /\ fs w2 = fs w1
    /\ log w2 = (log w ++ [warning_record w1
          ("No PDF files found in " +:+ PathOps.str (input_dir ns))])%list
    /\ rec_level (warning_record w1
          ("No PDF files found in " +:+ PathOps.str (input_dir ns))) = Logging.WARNING.
Proof.
  intros Hp Hc Hdir Hacc Hnone.
  rewrite (main_after_setup _ _ _ _ Hp Hc), Hdir, Hacc,
    (glob_suffix_none _ _ _ Hnone).
  apply configure_logging_returns in Hc as (_ & _ & _ & Hl & Hw & _).
  eexists. split; [done|]. simpl. split_and!; try done. by rewrite Hl.
Qed.

(** When the output directory cannot be created, the exception of the
    unguarded [mkdir] in [configure_logging] leaves [main]: no exit code is
    returned and nothing is logged. *)
Lemma main_mkdir_error args w ns e w' :
  parse_args env args w = (Returns ns, w) ->
  OS.mkdir_parents (output_dir ns) w = (Raises e, w') ->
  main env args w = (Raises e, w') /\ log w' = log w.
Proof.
  intros Hp Hmk. split.
  - eapply main_setup_error; [done|]. by apply configure_logging_mkdir_error.
  - by apply mkdir_parents_effects in Hmk as ((_ & _ & Hlog & _) & _).
Qed.

(** After [configure_logging] has returned, the guarded [mkdir] of [main]
    finds the directory and cannot fail: its handler is never entered. *)
Lemma guarded_mkdir_succeeds output_dir log_level log_to_console w w1 :
  configure_logging output_dir log_level log_to_console w = (Returns tt, w1) ->
  OS.mkdir_parents output_dir w1 = (Returns tt, w1).
Proof.
  intros (_ & [b Hb] & _)%configure_logging_returns.
  by eapply mkdir_parents_existing.
Qed.

End Orchestrator.

(** ** [parse_args] *)

Lemma elem_In v l : Str.elem v l = true <-> In v l.
Proof.
  unfold Str.elem. rewrite existsb_exists. split.
  - intros (x & Hx & ->%String.eqb_eq). done.
  - intros H. exists v. split; [done|]. apply String.eqb_refl.
Qed.

Lemma store_cases d v ns :
  match ArgParse.store d v ns with
  | Returns ns' =>
      (log_level ns' = log_level ns
       \/ (d = ArgParse.dest_log_level /\ log_level ns' = v
           /\ In v ArgParse.log_level_choices))
  | Raises e => e = SystemExit 2
  end.
Proof.
  destruct d; cbn [ArgParse.store log_level]; try done; try by left.
  destruct (Str.elem v ArgParse.log_level_choices) eqn:E; [|done].
  right. by apply elem_In in E.
Qed.

(** Whatever the tokens, the parser ends with [SystemExit] 0 (help) or 2
    (usage error) or with a namespace whose level is one of the choices. *)
Lemma consume_cases : forall n toks, (length toks <= n)%nat ->
  forall ns extras,
  In (log_level ns) ArgParse.log_level_choices ->
  match ArgParse.consume toks ns extras with
  | Returns ns' => In (log_level ns') ArgParse.log_level_choices
  | Raises e => e = SystemExit 0 \/ e = SystemExit 2
  end.
Proof.
  induction n as [|n IH]; intros [|t rest] Hlen ns extras Hns; simpl in Hlen;
    try lia.
  - simpl. destruct extras; auto.
  - simpl. destruct extras; auto.
  - cbn [ArgParse.consume].
    destruct (String.eqb t "--"); [auto|].
    assert (forall ns0 ex, In (log_level ns0) ArgParse.log_level_choices ->
              match ArgParse.consume rest ns0 ex with
              | Returns ns' => In (log_level ns') ArgParse.log_level_choices
              | Raises e => e = SystemExit 0 \/ e = SystemExit 2
              end) as IHrest by (intros; apply IH; [lia|done]).
    assert (forall d v (k : Namespace -> Outcome Namespace),
              (forall ns0, In (log_level ns0) ArgParse.log_level_choices ->
                 match k ns0 with
                 | Returns ns' => In (log_level ns') ArgParse.log_level_choices
                 | Raises e => e = SystemExit 0 \/ e = SystemExit 2
                 end) ->
              match match ArgParse.store d v ns with
                    | Returns ns' => k ns'
                    | Raises e => Raises e
                    end with
              | Returns ns' => In (log_level ns') ArgParse.log_level_choices
              | Raises e => e = SystemExit 0 \/ e = SystemExit 2
              end) as Hstore.
    { intros d v k Hk. pose proof (store_cases d v ns) as Hs.
      destruct (ArgParse.store d v ns) as [ns1|e]; [|auto].
      apply Hk. destruct Hs as [->|(_ & -> & Hv)]; done. }
    assert (forall d,
              match match rest with
                    | [] => Raises (SystemExit 2)
                    | v :: rest' =>
                        match ArgParse.classify v with
                        | ArgParse.TokArgument =>
                            match ArgParse.store d v ns with
                            | Returns ns' => ArgParse.consume rest' ns' extras
                            | Raises e => Raises e
                            end
                        | _ => Raises (SystemExit 2)
                        end
                    end with
              | Returns ns' => In (log_level ns') ArgParse.log_level_choices
              | Raises e => e = SystemExit 0 \/ e = SystemExit 2
              end) as Hnext.
    { intros d. destruct rest as [|v rest']; [auto|].
      destruct (ArgParse.classify v); auto.
      apply (Hstore d v (fun ns' => ArgParse.consume rest' ns' extras)).
      intros ns0 H0. apply IH; [simpl in Hlen; lia|done]. }
    destruct (ArgParse.classify t) as [d [v|]| | |]; auto; try (by apply IHrest).
    + destruct d; auto;
        apply (Hstore _ v (fun ns' => ArgParse.consume rest ns' extras));
        intros; by apply IHrest.
    + destruct d; auto; try apply Hnext. by apply IHrest.
Qed.

Lemma parse_cases defaults toks :
  In (log_level defaults) ArgParse.log_level_choices ->
  match ArgParse.parse defaults toks with
  | Returns ns' => In (log_level ns') ArgParse.log_level_choices
  | Raises e => e = SystemExit 0 \/ e = SystemExit 2
  end.
Proof.
  intros H. unfold ArgParse.parse. destruct (ArgParse.ambiguous toks); [auto|].
  by eapply consume_cases.
Qed.

Lemma default_log_level_recognized env :
  In (log_level (defaults env)) ArgParse.log_level_choices.
Proof. simpl. auto. Qed.

(** A [--log-level] option at the head of the command line with a value
    outside the choices ends the parser with a usage error. *)
Lemma parse_rejects_log_level defaults v rest :
  ~ In v ArgParse.log_level_choices ->
  ArgParse.parse defaults ("--log-level" :: v :: rest) = Raises (SystemExit 2).
Proof.
  intros Hv. unfold ArgParse.parse.
  destruct (ArgParse.ambiguous _); [done|].
  cbn [ArgParse.consume].
  change (String.eqb "--log-level" "--") with false.
  change (ArgParse.classify "--log-level")
    with (ArgParse.TokOption ArgParse.dest_log_level None).
  cbv beta iota.
  destruct (ArgParse.classify v); try done.
  cbn [ArgParse.store].
  destruct (Str.elem v ArgParse.log_level_choices) eqn:E; [|done].
  by apply elem_In in E.
Qed.

Lemma parse_accepts_log_level defaults v :
  In v ArgParse.log_level_choices ->
  ArgParse.parse defaults ["--log-level"; v] =
    Returns (mkNamespace (input_dir defaults) (output_dir defaults) v
                         (log_to_console defaults)).
Proof.
  intros Hv. simpl in Hv.
  destruct Hv as [<-|[<-|[<-|[<-|[<-|[]]]]]]; reflexivity.
Qed.

(** Wherever the parser comes to a [--log-level] option, in either spelling,
    with a value outside the choices, it exits at once with a usage error. *)
Lemma consume_rejects_log_level ns extras v rest :
  ~ In v ArgParse.log_level_choices ->
  ArgParse.consume ("--log-level" :: v :: rest) ns extras = Raises (SystemExit 2)
  /\ ArgParse.consume (("--log-level=" +:+ v) :: rest) ns extras = Raises (SystemExit 2).
Proof.
  intros Hv.
  assert (Str.elem v ArgParse.log_level_choices = false) as E.
  { destruct (Str.elem v ArgParse.log_level_choices) eqn:E; [|done].
    by apply elem_In in E. }
  split.
  - cbn [ArgParse.consume].
    change (String.eqb "--log-level" "--") with false.
    change (ArgParse.classify "--log-level")
      with (ArgParse.TokOption ArgParse.dest_log_level None).
    cbv beta iota.
    destruct (ArgParse.classify v); try done.
    cbn [ArgParse.store]. by rewrite E.
  - cbn [ArgParse.consume].
    assert (ArgParse.classify ("--log-level=" +:+ v)
            = ArgParse.TokOption ArgParse.dest_log_level (Some v)) as ->.
    { unfold ArgParse.classify. simpl. reflexivity. }
    change (String.eqb ("--log-level=" +:+ v) "--") with false.
    cbv beta iota. cbn [ArgParse.store]. by rewrite E.
Qed.

Section ArgumentResolution.

Context (env : Collaborators).

(** C5, as the code has it. The level is compared with the five names
    byte for byte.  A command line the parser accepts carries one of the
    five names exactly as written in [choices]; [--log-level v] alone is
    accepted exactly when [v] is one of them; a [--log-level] with any
    other value at the head of the command line ends [main] with
    [SystemExit(2)]; wherever the parser comes to [--log-level v] or
    [--log-level=v] with such a value it exits with status 2 without
    looking at the rest; and whenever the parser exits, [main] exits with
    the same [SystemExit] in an unchanged world: nothing was logged, no
    directory or file was made. *)
Theorem log_level_is_validated_exactly args w :
  (forall ns, fst (parse_args env args w) = Returns ns ->
     In (log_level ns) ["DEBUG"; "INFO"; "WARNING"; "ERROR"; "CRITICAL"])
  /\ (forall v,
        In v ["DEBUG"; "INFO"; "WARNING"; "ERROR"; "CRITICAL"] <->
        exists ns, parse_args env (Some ["--log-level"; v]) w = (Returns ns, w)
                   /\ log_level ns = v)
  /\ (forall v rest,
        ~ In v ["DEBUG"; "INFO"; "WARNING"; "ERROR"; "CRITICAL"] ->
        main env (Some ("--log-level" :: v :: rest)) w = (Raises (SystemExit 2), w))
  /\ (forall v rest ns extras,
        ~ In v ["DEBUG"; "INFO"; "WARNING"; "ERROR"; "CRITICAL"] ->
        ArgParse.consume ("--log-level" :: v :: rest) ns extras = Raises (SystemExit 2)
        /\ ArgParse.consume (("--log-level=" +:+ v) :: rest) ns extras
             = Raises (SystemExit 2))
  /\ (forall e, fst (parse_args env args w) = Raises e ->
        (e = SystemExit 0 \/ e = SystemExit 2)
        /\ main env args w = (Raises e, w)).
Proof.
  split_and!.
  - intros ns H. unfold parse_args in H. simpl in H.
    pose proof (parse_cases (defaults env)
                  (match args with Some a => a | None => sys_argv_tail env end)
                  (default_log_level_recognized env)) as Hc.
    by rewrite H in Hc.
  - intros v. split.
    + intros Hv. eexists. unfold parse_args.
      rewrite (parse_accepts_log_level _ _ Hv). done.
    + intros (ns & H & _). unfold parse_args in H. injection H as H.
      destruct (Str.elem v ArgParse.log_level_choices) eqn:E; [by apply elem_In|].
      rewrite parse_rejects_log_level in H; [done|].
      intros Hin%elem_In. congruence.
  - intros v rest Hv. apply main_parse_error. unfold parse_args. simpl fst.
    by apply parse_rejects_log_level.
  - intros v rest ns extras Hv. by apply consume_rejects_log_level.
  - intros e H. split; [|by apply main_parse_error].
    unfold parse_args in H. simpl in H.
    pose proof (parse_cases (defaults env)
                  (match args with Some a => a | None => sys_argv_tail env end)
                  (default_log_level_recognized env)) as Hc.
    by rewrite H in Hc.
Qed.

End ArgumentResolution.



Lemma convert_writes_one_file_per_page_witness :
  exists w',
    pdf_to_pngs Scenario.env report Out_dir false out_dir_made =
      (Returns [Out_dir </> "report_page_1.png"; Out_dir </> "report_page_2.png"], w')
    /\ writes w' = [Out_dir </> "report_page_1.png"; Out_dir </> "report_page_2.png"].
Proof.
  destruct (convert_writes_one_file_per_page Scenario.env report Out_dir false
              [PageImage 1; PageImage 2] out_dir_made) as (w' & Hrun & Hw & _).
  - reflexivity.
  - vm_compute. reflexivity.
  - intros name. unfold out_dir_made, process, input_files, fs.
    rewrite !lookup_insert_ne by (unfold notes, report, Out_dir, In_dir; congruence).
    apply lookup_empty.
  - reflexivity.
  - exists w'. split; [exact Hrun|exact Hw].
Defined.

Lemma convert_again_skips_every_page_witness :
  exists w2,
    pdf_to_pngs Scenario.env report Out_dir false
      (snd (pdf_to_pngs Scenario.env report Out_dir false out_dir_made)) = (Returns [], w2)
    /\ writes w2 = [Out_dir </> "report_page_1.png"; Out_dir </> "report_page_2.png"].
Proof.
  destruct (convert_again_skips_every_page Scenario.env report Out_dir out_dir_made
              [Out_dir </> "report_page_1.png"; Out_dir </> "report_page_2.png"]
              (snd (pdf_to_pngs Scenario.env report Out_dir false out_dir_made)))
    as (w2 & images & _ & Hrun & Hw & _).
  - vm_compute. reflexivity.
  - exists w2. split; [exact Hrun|]. rewrite Hw. vm_compute. reflexivity.
Defined.

Lemma convert_decode_failure_witness :
  exists w',
    pdf_to_pngs Scenario.env notes Out_dir false out_dir_made =
      (Raises (PdfConversionError "PDF conversion failed for /in/notes.pdf"
                 (Pdf2ImageError PDFSyntaxError "bad pdf")), w')
    /\ writes w' = [] /\ fs w' = fs out_dir_made.
Proof.
  destruct (convert_decode_failure Scenario.env notes Out_dir false
              PDFSyntaxError "bad pdf" out_dir_made)
    as (w' & Hrun & _ & _ & _ & Hw & Hfs).
  - reflexivity.
  - exists w'. split; [exact Hrun|]. split; [exact Hw|exact Hfs].
Defined.

Lemma convert_save_failure_keeps_earlier_pages_witness :
  exists w2,
    pdf_to_pngs disk_full_env report Out_dir false out_dir_made =
      (Raises (PdfConversionError "Failed to save /out/report_page_2.png"
                 (OSError (OtherOSError "No space left on device")
                          (Out_dir </> "report_page_2.png"))), w2)
    /\ writes w2 = [Out_dir </> "report_page_1.png"]
    /\ fs w2 !! (Out_dir </> "report_page_1.png") = Some File.
Proof.
  destruct (convert_save_failure_keeps_earlier_pages disk_full_env report Out_dir false
              [PageImage 1] (PageImage 2) [PageImage 3] out_dir_made
              [Out_dir </> "report_page_1.png"]
              (snd (save_pages disk_full_env report Out_dir false [PageImage 1] 1 []
                      out_dir_made))
              (OSError (OtherOSError "No space left on device")
                       (Out_dir </> "report_page_2.png")))
    as (k & w2 & _ & Hrun & _ & Hw & Hfiles & _).
  - reflexivity.
  - vm_compute. reflexivity.
  - intros H. exfalso. vm_compute in H. destruct H as [x Hx]. discriminate.
  - vm_compute. reflexivity.
  - exists w2. split; [exact Hrun|]. split; [rewrite Hw; reflexivity|].
    exact (Forall_inv Hfiles).
Defined.


(** The run of the specification's scenario: both pages of [report.pdf]
    are written, [notes.pdf] fails, the exit code is 1. *)
Example scenario_run :
  exists w2,
    main Scenario.env args start = (Returns 1, w2)
    /\ writes w2 = [Out_dir </> "report_page_1.png"; Out_dir </> "report_page_2.png"]
    /\ map rec_msg (log w2) =
         ["Saved /out/report_page_1.png"; "Saved /out/report_page_2.png";
          "Failed to convert /in/notes.pdf: bad pdf";
          "PDF conversion failed for /in/notes.pdf"].
Proof. eexists. split; [vm_compute; reflexivity|]. split; reflexivity. Qed.

Lemma main_missing_input_dir_witness :
  exists w2,
    main Scenario.env (Some ["--input-dir"; "/nope"; "--output-dir"; "/out"]) start
      = (Returns 1, w2)
    /\ writes w2 = []
    /\ fs w2 !! (Out_dir </> "app.log") = Some File.
Proof.
  destruct (main_missing_input_dir Scenario.env
              (Some ["--input-dir"; "/nope"; "--output-dir"; "/out"]) start
              (mkNamespace (Root </> "nope") Out_dir "INFO" false)
              (logging_ready start))
    as (w2 & Hrun & Hw & _ & _ & Hlog & _).
  - vm_compute. reflexivity.
  - vm_compute. reflexivity.
  - vm_compute. reflexivity.
  - exists w2. split; [exact Hrun|]. split; [exact Hw|exact Hlog].
Defined.

(** C4, as stated, fails: the configuration is valid and the input
    directory does not exist, yet the run does not leave the file system
    without new files: [/out] and [/out/app.log] are there afterwards. *)
Lemma missing_input_dir_creates_files :
  (exists ns, parse_args Scenario.env
                (Some ["--input-dir"; "/nope"; "--output-dir"; "/out"]) start
              = (Returns ns, start)
              /\ fs start !! input_dir ns = None)
  /\ ~ (exists w2,
          main Scenario.env (Some ["--input-dir"; "/nope"; "--output-dir"; "/out"]) start
            = (Returns 1, w2)
          /\ forall p, fs w2 !! p = fs start !! p).
Proof.
  split.
  - eexists. split; [vm_compute; reflexivity|]. vm_compute. reflexivity.
  - intros (w2 & Hrun & Hsame).
    specialize (Hsame (Out_dir </> "app.log")).
    vm_compute in Hrun. injection Hrun as <-.
    vm_compute in Hsame. discriminate.
Qed.

Lemma main_no_documents_witness :
  exists w2,
    main Scenario.env args (process no_documents) = (Returns 0, w2)
    /\ writes w2 = []
    /\ map rec_msg (log w2) = ["No PDF files found in /in"].
Proof.
  destruct (main_no_documents Scenario.env args (process no_documents) parsed
              (logging_ready (process no_documents)))
    as (w2 & Hrun & Hw & _ & Hlog & _).
  - vm_compute. reflexivity.
  - vm_compute. reflexivity.
  - vm_compute. reflexivity.
  - vm_compute. reflexivity.
  - intros name [x Hx]. revert Hx.
    change (fs (logging_ready (process no_documents)))
      with (<[Out_dir </> "app.log" := File]> (<[Out_dir := Dir true]> no_documents)).
    unfold parsed, input_dir, no_documents.
    rewrite !lookup_insert_ne by (unfold Out_dir, In_dir; congruence).
    destruct (decide (name = "readme.txt")) as [->|Hne]; [reflexivity|].
    rewrite lookup_insert_ne by (unfold In_dir; congruence).
    rewrite !lookup_insert_ne by (unfold In_dir; congruence).
    by rewrite lookup_empty.
  - exists w2. split; [exact Hrun|]. split; [exact Hw|]. rewrite Hlog. reflexivity.
Defined.

(** C5, as stated, fails: [debug] names the level DEBUG when letter case
    is ignored, and the parser rejects it. *)
Lemma lower_case_level_is_rejected :
  Str.elem (Str.upper "debug") ["DEBUG"; "INFO"; "WARNING"; "ERROR"; "CRITICAL"] = true
  /\ parse_args Scenario.env (Some ["--log-level"; "debug"]) start
       = (Raises (SystemExit 2), start).
Proof. split; reflexivity. Qed.

(** C6: the output path is an existing regular file.  Creating the output
    directory fails, and [main] neither returns 1 nor logs an error: the
    [FileExistsError] of the [mkdir] in [configure_logging] leaves [main],
    and the world is as it was. *)
Theorem main_output_dir_uncreatable :
  OS.mkdir_parents (In_dir </> "readme.txt") start
    = (Raises (OSError FileExistsError (In_dir </> "readme.txt")), start)
  /\ main Scenario.env (Some ["--input-dir"; "/in"; "--output-dir"; "/in/readme.txt"]) start
       = (Raises (OSError FileExistsError (In_dir </> "readme.txt")), start)
  /\ log start = [].
Proof. split; [|split]; vm_compute; reflexivity. Qed.

(** C10: [BASIC_FORMAT] names no logging level, yet it is an attribute of
    the [logging] module, so [getattr] does not fall back to INFO: the
    format string reaches [setLevel], and [configure_logging] raises
    [ValueError] with the root level unchanged. *)
Theorem configure_logging_unknown_level_raises :
  Str.assoc (Str.upper "BASIC_FORMAT") Logging._nameToLevel = None
  /\ exists w',
       configure_logging Out_dir "BASIC_FORMAT" false start
         = (Raises (ValueError "Unknown level: '%(levelname)s:%(name)s:%(message)s'"), w')
       /\ root_level w' = root_level start
       /\ root_handlers w' = [FileHandler (Out_dir </> "app.log")].
Proof. split; [reflexivity|]. eexists. split; [vm_compute; reflexivity|]. split; reflexivity. Qed.

(** For a name that is no attribute of the [logging] module at all, the
    fallback works: once the directory and [app.log] are there, the level is
    INFO and the sinks are attached. *)
Lemma configure_logging_falls_back_to_INFO output_dir log_level log_to_console w wa wb :
  Str.assoc (Str.upper log_level) Logging.module_attrs = None ->
  OS.mkdir_parents output_dir w = (Returns tt, wa) ->
  OS.open_for_writing (output_dir </> "app.log") wa = (Returns tt, wb) ->
  configure_logging output_dir log_level log_to_console w =
    (Returns tt,
     with_root_level Logging.INFO
       (with_root_handlers (log_sinks output_dir log_to_console) wb)).
Proof.
  intros Hattr Hmk Hopen. unfold configure_logging.
  unfold bind at 1. rewrite Hmk.
  unfold bind at 1, Logging.new_FileHandler. unfold bind at 1. rewrite Hopen.
  unfold Logging.getattr. rewrite Hattr. reflexivity.
Qed.

(** * Further properties *)

(** ** [pdf_to_pngs]: which pages are written *)

Section WrittenPages.

Context (env : Collaborators) (pdf_path output_dir : Path) (overwrite : bool).

Local Abbreviation page := (page_path pdf_path output_dir).

(** In a writable output directory with a fault-free encoder the loop
    saves, in page order, the pages [pages_to_write] selects in the file
    system it started from, and returns them. *)
Lemma save_pages_written images : forall i acc w f0,
  fs w !! output_dir = Some (Dir true) ->
  (forall j, (i <= j)%nat -> fs w !! page j = f0 !! page j) ->
  (overwrite = true -> forall j b, f0 !! page j <> Some (Dir b)) ->
  (forall f k img, images !! k = Some img ->
                   save_fault env f img (page (i + k)) = None) ->
  exists w',
    save_pages env pdf_path output_dir overwrite images i acc w =
      (Returns (acc ++ pages_to_write overwrite f0
                         (map page (seq i (length images))))%list, w')
    /\ writes w' = (writes w ++ pages_to_write overwrite f0
                                  (map page (seq i (length images))))%list
    /\ (forall p, fs w' !! p =
                  if decide (p ∈ pages_to_write overwrite f0
                                   (map page (seq i (length images))))
                  then Some File else fs w !! p).
Proof.
  unfold pages_to_write.
  induction images as [|img rest IH]; intros i acc w f0 Hdir Hsame Hnodir Hok.
  - exists w. simpl. rewrite !app_nil_r. done.
  - rewrite save_pages_cons. cbn [length seq map].
    pose proof (Hsame i (le_n i)) as Hi.
    destruct (bool_decide (is_Some (fs w !! page i)) && negb overwrite) eqn:Hskip.
    + apply andb_prop in Hskip as [Hex Hov].
      apply bool_decide_eq_true in Hex. apply negb_true_iff in Hov.
      rewrite filter_cons_False
        by (intros [?|Hnone]; [congruence|rewrite Hi, Hnone in Hex; by destruct Hex]).
      destruct (IH (S i) acc
                  (with_log (log w ++ [skip_record pdf_path output_dir w i]) w) f0)
        as (w' & Hrun & Hw & Hfs); simpl; [done| |done| |].
      * intros j Hj. apply Hsame. lia.
      * intros f k img' Hk. pose proof (Hok f (S k) img' Hk) as Hk'.
        by replace (i + S k)%nat with (S i + k)%nat in Hk' by lia.
      * exists w'. by simpl in *.
    + assert (overwrite = true \/ f0 !! page i = None) as Hwrite.
      { destruct overwrite; [by left|right]. rewrite andb_true_r in Hskip.
        apply bool_decide_eq_false in Hskip. rewrite <- Hi.
        destruct (fs w !! page i) eqn:E; [|done]. destruct Hskip. by eexists. }
      rewrite filter_cons_True by done.
      assert (exists w1, Image_save env img (page i) w = (Returns tt, w1)) as [w1 Hs].
      { pose proof (Hok (fs w) 0%nat img eq_refl) as H0.
        rewrite Nat.add_0_r in H0. py_unfold. rewrite H0.
        destruct (fs w !! page i) as [[|b]|] eqn:E; [by eexists| |].
        - destruct Hwrite as [Hov|Hnone]; [|congruence].
          exfalso. apply (Hnodir Hov i b). congruence.
        - cbn [PathOps.parent page_path]. rewrite Hdir. by eexists. }
      destruct (Image_save_cases env img (page i) w)
        as [[k Hr]|(w1' & Hs' & Hfile & _ & Hother & Hw1 & _)];
        [congruence|]. rewrite Hs' in Hs. injection Hs as ->. rewrite Hs'.
      edestruct (IH (S i) (acc ++ [page i])%list
                   (with_log (log w1 ++ [saved_record pdf_path output_dir w1 i]) w1) f0)
        as (w' & Hrun & Hw & Hfs); [| | | |rewrite Hrun].
      * simpl. rewrite Hother; [done|]. apply not_eq_sym, child_neq.
      * intros j Hj. simpl. rewrite Hother; [apply Hsame; lia|].
        intros E%page_path_inj. lia.
      * done.
      * intros f k img' Hk. pose proof (Hok f (S k) img' Hk) as Hk'.
        by replace (i + S k)%nat with (S i + k)%nat in Hk' by lia.
      * exists w'. simpl in *. rewrite <- !app_assoc. rewrite Hw1, <- app_assoc in Hw.
        split; [done|]. split; [done|].
        intros p. rewrite Hfs. destruct (decide (p = page i)) as [->|Hne].
        -- rewrite Hfile, (decide_True (P := _ ∈ _ :: _)) by left.
           by destruct (decide _).
        -- rewrite Hother by done.
           destruct (decide (p ∈ filter _ (map page (seq (S i) (length rest)))))
             as [Hin|Hout].
           ++ by rewrite decide_True by by right.
           ++ rewrite decide_False; [done|]. by intros [?|?]%elem_of_cons.
Qed.

End WrittenPages.

Lemma pages_to_write_overwrite f pages : pages_to_write true f pages = pages.
Proof.
  unfold pages_to_write. induction pages as [|p l IH]; [done|].
  rewrite filter_cons_True by by left. by rewrite IH.
Qed.

(** X1. Without [overwrite], in a writable output directory and with an
    encoder that reports no fault, [pdf_to_pngs] saves exactly the pages
    whose path had no entry when it started, in page order, and returns
    them; these paths are files afterwards and every other path, the pages
    that were skipped among them, is as before. *)
Theorem convert_fills_in_missing_pages env pdf_path output_dir images w :
  decode_pdf env pdf_path = Decoded images ->
  fs w !! output_dir = Some (Dir true) ->
  (forall f k img, images !! k = Some img ->
     save_fault env f img (page_path pdf_path output_dir (S k)) = None) ->
  exists w',
    pdf_to_pngs env pdf_path output_dir false w =
      (Returns (filter (fun p => fs w !! p = None)
                  (map (page_path pdf_path output_dir) (seq 1 (length images)))), w')
    /\ writes w' =
         (writes w ++ filter (fun p => fs w !! p = None)
                        (map (page_path pdf_path output_dir) (seq 1 (length images))))%list
    /\ (forall p, fs w' !! p =
                  if decide (p ∈ filter (fun p => fs w !! p = None)
                                   (map (page_path pdf_path output_dir)
                                        (seq 1 (length images))))
                  then Some File else fs w !! p).
Proof.
  intros Hd Hdir Hok.
  rewrite (pdf_to_pngs_decoded _ _ _ _ _ _ Hd).
  destruct (save_pages_written env pdf_path output_dir false images 1 [] w (fs w))
    as (w' & Hrun & Hw & Hfs); [done|done|done|done|].
  assert (pages_to_write false (fs w)
            (map (page_path pdf_path output_dir) (seq 1 (length images)))
          = filter (fun p => fs w !! p = None)
              (map (page_path pdf_path output_dir) (seq 1 (length images)))) as E.
  { apply list_filter_iff. intros p. split; [by intros [?|?]|by right]. }
  rewrite E in *. by exists w'.
Qed.

(** X2. With [overwrite], in a writable output directory where no page
    path is a directory and with an encoder that reports no fault,
    [pdf_to_pngs] saves every page, whether its file was there or not, and
    returns all the page paths in page order; entries of the output
    directory that are no page of this document are as before. *)
Theorem convert_overwrite_saves_every_page env pdf_path output_dir images w :
  decode_pdf env pdf_path = Decoded images ->
  fs w !! output_dir = Some (Dir true) ->
  (forall j b, fs w !! page_path pdf_path output_dir j <> Some (Dir b)) ->
  (forall f k img, images !! k = Some img ->
     save_fault env f img (page_path pdf_path output_dir (S k)) = None) ->
  exists w',
    pdf_to_pngs env pdf_path output_dir true w =
      (Returns (map (page_path pdf_path output_dir) (seq 1 (length images))), w')
    /\ writes w' =
         (writes w ++ map (page_path pdf_path output_dir) (seq 1 (length images)))%list
    /\ (forall p, fs w' !! p =
                  if decide (p ∈ map (page_path pdf_path output_dir)
                                   (seq 1 (length images)))
                  then Some File else fs w !! p).
Proof.
  intros Hd Hdir Hnodir Hok.
  rewrite (pdf_to_pngs_decoded _ _ _ _ _ _ Hd).
  destruct (save_pages_written env pdf_path output_dir true images 1 [] w (fs w))
    as (w' & Hrun & Hw & Hfs); [done|done|done|done|].
  assert (pages_to_write true (fs w)
            (map (page_path pdf_path output_dir) (seq 1 (length images)))
          = map (page_path pdf_path output_dir) (seq 1 (length images))) as E.
  { apply pages_to_write_overwrite. }
  rewrite E in *. by exists w'.
Qed.

Lemma convert_fills_in_missing_pages_witness :
  exists w',
    pdf_to_pngs Scenario.env report Out_dir false Rerun.page_1_there =
      (Returns [Out_dir </> "report_page_2.png"], w')
    /\ writes w' = [Out_dir </> "report_page_2.png"].
Proof.
  destruct (convert_fills_in_missing_pages Scenario.env report Out_dir
              [PageImage 1; PageImage 2] Rerun.page_1_there)
    as (w' & Hrun & Hw & _).
  - reflexivity.
  - vm_compute. reflexivity.
  - reflexivity.
  - exists w'. split; [exact Hrun|exact Hw].
Defined.

Lemma convert_overwrite_saves_every_page_witness :
  exists w',
    pdf_to_pngs Scenario.env report Out_dir true Rerun.page_1_there =
      (Returns [Out_dir </> "report_page_1.png"; Out_dir </> "report_page_2.png"], w')
    /\ fs w' !! (Out_dir </> "cover.png") = Some File.
Proof.
  destruct (convert_overwrite_saves_every_page Scenario.env report Out_dir
              [PageImage 1; PageImage 2] Rerun.page_1_there)
    as (w' & Hrun & _ & Hfs).
  - reflexivity.
  - vm_compute. reflexivity.
  - intros j b. unfold Rerun.page_1_there, process, input_files, fs.
    destruct (decide (page_path report Out_dir j = Out_dir </> "report_page_1.png"))
      as [->|Hne]; [by rewrite lookup_insert_eq|].
    rewrite lookup_insert_ne by done.
    rewrite lookup_insert_ne
      by (unfold page_path; change (PathOps.stem report) with "report";
          by intros [=]).
    rewrite !lookup_insert_ne
      by (unfold page_path, notes, report, Out_dir, In_dir; congruence).
    by rewrite lookup_empty.
  - reflexivity.
  - exists w'. split; [exact Hrun|]. rewrite Hfs. vm_compute. reflexivity.
Defined.

(** ** [pdf_to_pngs]: what a run touches and what it logs *)

Lemma info_record_same w w' msg :
  root_level w' = root_level w -> root_handlers w' = root_handlers w ->
  info_record w' msg = info_record w msg.
Proof. unfold info_record. by intros -> ->. Qed.

Lemma error_record_same w w' msg :
  root_level w' = root_level w -> root_handlers w' = root_handlers w ->
  error_record w' msg = error_record w msg.
Proof. unfold error_record. by intros -> ->. Qed.

Lemma dispatched_same w w' r :
  root_level w' = root_level w -> root_handlers w' = root_handlers w ->
  dispatched w' r -> dispatched w r.
Proof. unfold dispatched. by intros -> ->. Qed.

Lemma info_record_dispatched w msg : dispatched w (info_record w msg).
Proof. done. Qed.

Lemma error_record_dispatched w msg : dispatched w (error_record w msg).
Proof. done. Qed.

Lemma warning_record_dispatched w msg : dispatched w (warning_record w msg).
Proof. done. Qed.

Section PageTrace.

Context (env : Collaborators) (pdf_path output_dir : Path) (overwrite : bool).

Local Abbreviation page := (page_path pdf_path output_dir).

(** The loop changes no path but the pages it goes over. *)
Lemma save_pages_untouched images : forall i acc w r w',
  save_pages env pdf_path output_dir overwrite images i acc w = (r, w') ->
  forall p, (forall j, (i <= j < i + length images)%nat -> p <> page j) ->
  fs w' !! p = fs w !! p.
Proof.
  induction images as [|img rest IH]; intros i acc w r w' H p Hp.
  - by injection H as <- <-.
  - rewrite save_pages_cons in H. simpl in Hp.
    assert (forall j, (S i <= j < S i + length rest)%nat -> p <> page j) as Hp'
      by (intros j Hj; apply Hp; lia).
    destruct (bool_decide (is_Some (fs w !! page i)) && negb overwrite).
    + by rewrite (IH _ _ _ _ _ H p Hp').
    + destruct (Image_save_cases env img (page i) w)
        as [[k Hs]|(w1 & Hs & _ & _ & Hother & _)]; rewrite Hs in H.
      * by injection H as <- <-.
      * rewrite (IH _ _ _ _ _ H p Hp'). simpl. apply Hother, Hp. lia.
Qed.

(** Every record of the loop is dispatched by the configuration the loop
    started with. *)
Lemma save_pages_dispatched images : forall i acc w r w',
  save_pages env pdf_path output_dir overwrite images i acc w = (r, w') ->
  exists l, log w' = (log w ++ l)%list /\ Forall (dispatched w) l.
Proof.
  induction images as [|img rest IH]; intros i acc w r w' H.
  - injection H as <- <-. exists []. by rewrite app_nil_r.
  - rewrite save_pages_cons in H.
    destruct (bool_decide (is_Some (fs w !! page i)) && negb overwrite).
    + apply IH in H as (l & Hlog & Hl). simpl in *.
      exists (skip_record pdf_path output_dir w i :: l).
      rewrite Hlog, <- app_assoc. split; [done|]. by constructor.
    + destruct (Image_save_cases env img (page i) w)
        as [[k Hs]|(w1 & Hs & _ & _ & _ & _ & Hl1 & Hlv1 & Hh1)]; rewrite Hs in H.
      * injection H as <- <-. simpl. eexists. split; [done|].
        by constructor.
      * apply IH in H as (l & Hlog & Hl). simpl in *.
        exists (saved_record pdf_path output_dir w1 i :: l).
        rewrite Hlog, Hl1, <- app_assoc. split; [done|]. constructor.
        -- unfold dispatched, saved_record, info_record. simpl. by rewrite Hlv1, Hh1.
        -- eapply Forall_impl; [exact Hl|]. intros r0.
           unfold dispatched. simpl. by rewrite Hlv1, Hh1.
Qed.

(** When the loop returns it has logged one record per page, in page
    order: "Saved" for the pages it returns, "Skipping existing file" for
    the others. *)
Lemma save_pages_log images : forall i acc w ps w',
  save_pages env pdf_path output_dir overwrite images i acc w = (Returns ps, w') ->
  exists new,
    ps = (acc ++ new)%list
    /\ Forall (fun p => exists j, (i <= j < i + length images)%nat /\ p = page j) new
    /\ log w' = (log w ++ map (page_record pdf_path output_dir w new)
                            (seq i (length images)))%list.
Proof.
  induction images as [|img rest IH]; intros i acc w ps w' H.
  - injection H as <- <-. exists []. by rewrite !app_nil_r.
  - rewrite save_pages_cons in H.
    destruct (bool_decide (is_Some (fs w !! page i)) && negb overwrite).
    + apply IH in H as (new & -> & Hnew & Hlog). simpl in *.
      exists new. split; [done|]. split.
      * eapply Forall_impl; [exact Hnew|]. intros p (j & Hj & ->). exists j.
        split; [lia|done].
      * rewrite Hlog, <- app_assoc. do 2 f_equal. simpl. f_equal.
        unfold page_record. rewrite bool_decide_eq_false_2; [done|].
        intros Hin. rewrite Forall_forall in Hnew.
        destruct (Hnew _ Hin) as (j & Hj & E%page_path_inj). lia.
    + destruct (Image_save_cases env img (page i) w)
        as [[k Hs]|(w1 & Hs & _ & _ & _ & _ & Hl1 & Hlv1 & Hh1)]; rewrite Hs in H;
        [done|].
      apply IH in H as (new & -> & Hnew & Hlog). simpl in *.
      exists (page i :: new). rewrite <- app_assoc. split; [done|]. split.
      * constructor; [exists i; split; [lia|done]|].
        eapply Forall_impl; [exact Hnew|]. intros p (j & Hj & ->). exists j.
        split; [lia|done].
      * rewrite Hlog, Hl1, <- app_assoc. do 2 f_equal. simpl. f_equal.
        -- unfold page_record. rewrite bool_decide_eq_true_2 by left.
           unfold saved_record. by apply info_record_same.
        -- apply map_ext_in. intros j Hj%in_seq. unfold page_record.
           assert (page j ∈ new <-> page j ∈ page i :: new) as Hiff.
           { split; [by right|]. intros [E%page_path_inj|?]%elem_of_cons; [lia|done]. }
           rewrite (bool_decide_ext _ _ Hiff).
           unfold saved_record, skip_record.
           destruct (bool_decide _); by apply info_record_same.
Qed.

End PageTrace.

Section PageOrder.

Context (env : Collaborators) (pdf_path output_dir : Path) (overwrite : bool).

Local Abbreviation page := (page_path pdf_path output_dir).

(** The paths the loop adds to the ones it was given are pages it went
    over, in page order. *)
Lemma save_pages_sublist images : forall i acc w ps w',
  save_pages env pdf_path output_dir overwrite images i acc w = (Returns ps, w') ->
  exists new, ps = (acc ++ new)%list
              /\ sublist new (map page (seq i (length images))).
Proof.
  induction images as [|img rest IH]; intros i acc w ps w' H.
  - injection H as <- <-. exists []. by rewrite app_nil_r.
  - rewrite save_pages_cons in H.
    destruct (bool_decide (is_Some (fs w !! page i)) && negb overwrite).
    + apply IH in H as (new & -> & Hsub). exists new. split; [done|].
      simpl. by apply sublist_cons.
    + destruct (Image_save env img (page i) w) as [[[]|e] w1]; [|by destruct e].
      apply IH in H as (new & -> & Hsub). exists (page i :: new).
      rewrite <- app_assoc. split; [done|]. simpl. by apply sublist_skip.
Qed.

End PageOrder.

Lemma pdf_to_pngs_untouched env pdf_path output_dir overwrite w r w' :
  pdf_to_pngs env pdf_path output_dir overwrite w = (r, w') ->
  forall p, (forall i, p <> page_path pdf_path output_dir i) ->
            fs w' !! p = fs w !! p.
Proof.
  intros H p Hp. destruct (decode_pdf env pdf_path) as [images|k m] eqn:Hd.
  - rewrite (pdf_to_pngs_decoded _ _ _ _ _ _ Hd) in H.
    eapply save_pages_untouched; [exact H|]. intros j _. apply Hp.
  - rewrite (pdf_to_pngs_decode_error _ _ _ _ _ _ _ Hd) in H.
    by injection H as <- <-.
Qed.

(** The records of a run are dispatched by the configuration it started
    with; a run that returns has logged at level INFO only. *)
Lemma pdf_to_pngs_records env pdf_path output_dir overwrite w r w' :
  pdf_to_pngs env pdf_path output_dir overwrite w = (r, w') ->
  exists l, log w' = (log w ++ l)%list
            /\ Forall (dispatched w) l
            /\ (forall ps, r = Returns ps ->
                  Forall (fun r => rec_level r = Logging.INFO) l).
Proof.
  intros H. destruct (decode_pdf env pdf_path) as [images|k m] eqn:Hd.
  - rewrite (pdf_to_pngs_decoded _ _ _ _ _ _ Hd) in H.
    destruct (save_pages_dispatched _ _ _ _ _ _ _ _ _ _ H) as (l & Hlog & Hl).
    exists l. split; [done|]. split; [done|]. intros ps ->.
    apply save_pages_log in H as (new & _ & _ & Hlog').
    rewrite Hlog in Hlog'. apply app_inv_head in Hlog'. subst l.
    apply Forall_forall. intros r (j & -> & _)%list_elem_of_fmap.
    unfold page_record. by destruct (bool_decide _).
  - rewrite (pdf_to_pngs_decode_error _ _ _ _ _ _ _ Hd) in H.
    injection H as <- <-. simpl. eexists. split; [done|].
    split; [by constructor|]. by intros ps [=].
Qed.


(** X4. A run of [pdf_to_pngs] that returns has logged exactly one record
    per page of the document, in page order, each at level INFO:
    [Saved <path>] for the pages it returns and
    [Skipping existing file: <path>] for the others. *)
Theorem convert_logs_one_record_per_page
    env pdf_path output_dir overwrite w paths w' :
  pdf_to_pngs env pdf_path output_dir overwrite w = (Returns paths, w') ->
  exists images,
    decode_pdf env pdf_path = Decoded images
    /\ log w' = (log w ++ map (page_record pdf_path output_dir w paths)
                            (seq 1 (length images)))%list
    /\ Forall (fun r => rec_level r = Logging.INFO /\ dispatched w r)
         (map (page_record pdf_path output_dir w paths) (seq 1 (length images))).
Proof.
  intros H. destruct (decode_pdf env pdf_path) as [images|k m] eqn:Hd.
  - rewrite (pdf_to_pngs_decoded _ _ _ _ _ _ Hd) in H.
    apply save_pages_log in H as (new & -> & _ & Hlog).
    exists images. split; [done|]. split; [done|].
    apply Forall_forall. intros r (j & -> & _)%list_elem_of_fmap.
    unfold page_record. by destruct (bool_decide _).
  - by rewrite (pdf_to_pngs_decode_error _ _ _ _ _ _ _ Hd) in H.
Qed.

(** X5. The paths a run of [pdf_to_pngs] returns are the images it saved,
    in the order it saved them: each is a file afterwards, none occurs
    twice, and they are pages of the document in page order. *)
Theorem convert_returns_what_it_saved
    env pdf_path output_dir overwrite w paths w' :
  pdf_to_pngs env pdf_path output_dir overwrite w = (Returns paths, w') ->
  exists images,
    decode_pdf env pdf_path = Decoded images
    /\ writes w' = (writes w ++ paths)%list
    /\ Forall (fun p => fs w' !! p = Some File) paths
    /\ sublist paths (map (page_path pdf_path output_dir) (seq 1 (length images)))
    /\ NoDup paths.
Proof.
  intros H.
  pose proof (pdf_to_pngs_effects _ _ _ _ _ _ _ H)
    as (_ & _ & _ & _ & (new & Hw & Hnew & Hr) & _).
  rewrite <- (Hr paths eq_refl) in *.
  destruct (decode_pdf env pdf_path) as [images|k m] eqn:Hd.
  - rewrite (pdf_to_pngs_decoded _ _ _ _ _ _ Hd) in H.
    apply save_pages_sublist in H as (new' & -> & Hsub).
    exists images. split_and!; try done.
    eapply sublist_NoDup; [|exact Hsub].
    apply NoDup_fmap_2; [|apply NoDup_seq]. intros i j. apply page_path_inj.
  - by rewrite (pdf_to_pngs_decode_error _ _ _ _ _ _ _ Hd) in H.
Qed.


Lemma convert_logs_one_record_per_page_witness :
  map rec_msg
    (log (snd (pdf_to_pngs Scenario.env report Out_dir false Rerun.page_1_there)))
  = ["Skipping existing file: /out/report_page_1.png";
     "Saved /out/report_page_2.png"].
Proof.
  destruct (convert_logs_one_record_per_page Scenario.env report Out_dir false
              Rerun.page_1_there [Out_dir </> "report_page_2.png"]
              (snd (pdf_to_pngs Scenario.env report Out_dir false Rerun.page_1_there)))
    as (images & Hd & Hlog & _).
  - vm_compute. reflexivity.
  - injection Hd as <-. rewrite Hlog. vm_compute. reflexivity.
Defined.

Lemma convert_returns_what_it_saved_witness :
  writes (snd (pdf_to_pngs Scenario.env report Out_dir false Rerun.page_1_there))
  = [Out_dir </> "report_page_2.png"].
Proof.
  destruct (convert_returns_what_it_saved Scenario.env report Out_dir false
              Rerun.page_1_there [Out_dir </> "report_page_2.png"]
              (snd (pdf_to_pngs Scenario.env report Out_dir false Rerun.page_1_there)))
    as (images & _ & Hw & _).
  - vm_compute. reflexivity.
  - rewrite Hw. reflexivity.
Defined.

(** ** [configure_logging]: the level, the failures, a second call *)

(** The level names of [logging] are attributes of the module, with their
    level as value. *)
Lemma getattr_level name n d :
  Str.assoc name Logging._nameToLevel = Some n ->
  Logging.getattr name d = Logging.AttrInt n.
Proof.
  unfold Logging.getattr, Logging._nameToLevel, Logging.module_attrs.
  cbn [Str.assoc].
  repeat (destruct (String.eqb name _); cbv iota; try congruence).
Qed.

(** A name that is no level name is no attribute at all, or one of the two
    attributes that are not levels. *)
Lemma getattr_no_level name d :
  Str.assoc name Logging._nameToLevel = None ->
  (Str.assoc name Logging.module_attrs = None /\ Logging.getattr name d = d)
  \/ (is_Some (Str.assoc name Logging.module_attrs)
      /\ (Logging.getattr name d = Logging.AttrStr "%(levelname)s:%(name)s:%(message)s"
          \/ Logging.getattr name d = Logging.AttrDict)).
Proof.
  unfold Logging.getattr, Logging._nameToLevel, Logging.module_attrs.
  cbn [Str.assoc].
  repeat (destruct (String.eqb name _); cbv iota; try congruence;
          try (right; by eauto)).
  intros _. by left.
Qed.

(** How [configure_logging] can fail: with the [OSError] of [mkdir] or of
    opening [app.log], before the root logger is touched; or in [setLevel],
    for a name that is an attribute of [logging] and no level. *)
Lemma configure_logging_raises output_dir log_level log_to_console w e w1 :
  configure_logging output_dir log_level log_to_console w = (Raises e, w1) ->
  ((exists k p, e = OSError k p) /\ same_process_state w w1)
  \/ ((exists m, e = ValueError m \/ e = TypeError m)
      /\ Str.assoc (Str.upper log_level) Logging._nameToLevel = None
      /\ is_Some (Str.assoc (Str.upper log_level) Logging.module_attrs)).
Proof.
  unfold configure_logging. unfold bind at 1.
  destruct (OS.mkdir_parents output_dir w) as [[[]|e0] wa] eqn:Hmk;
    apply mkdir_parents_effects in Hmk as (Hs & _ & _ & He).
  2:{ intros [= <- <-]. left. split; [by apply He|done]. }
  unfold bind at 1, Logging.new_FileHandler. unfold bind at 1.
  destruct (open_for_writing_cases (output_dir </> "app.log") wa)
    as [[k ->]|(wb & -> & _ & _ & _ & Hs')].
  { intros [= <- <-]. left. split; [eauto|done]. }
  py_unfold. cbn [with_root_handlers root_handlers].
  destruct (Str.assoc (Str.upper log_level) Logging._nameToLevel) as [n|] eqn:Hn.
  - by rewrite (getattr_level _ _ _ Hn).
  - destruct (getattr_no_level _ (Logging.AttrInt Logging.INFO) Hn)
      as [[_ ->]|[Hattr [-> | ->]]]; [done| |];
      intros [= <- <-]; right; eauto.
Qed.



(** X8. A second call of [configure_logging] with the same arguments,
    made where the first one returned, returns and changes nothing: no
    second handler is attached, the level stays, [app.log] is not made
    again. *)
Theorem configure_logging_twice output_dir log_level log_to_console w w1 :
  configure_logging output_dir log_level log_to_console w = (Returns tt, w1) ->
  configure_logging output_dir log_level log_to_console w1 = (Returns tt, w1).
Proof.
  intros (_ & [b Hb] & Hfile & _ & _ & Hh & Hattr)%configure_logging_returns.
  unfold configure_logging. unfold bind at 1.
  rewrite (mkdir_parents_existing _ _ _ Hb).
  py_unfold. rewrite Hfile. cbn [with_root_handlers root_handlers].
  rewrite Hattr. destruct w1 as [f l h lg ws]. simpl in *. subst h.
  reflexivity.
Qed.

(** X9. In a writable directory that has no entry for the output
    directory, [configure_logging] with a level name makes exactly two
    entries, the output directory and [app.log] in it, attaches the file
    handler (and the console handler when asked), sets the named level, and
    logs nothing. *)
Theorem configure_logging_new_directory d name log_level log_to_console n w :
  fs w !! d = Some (Dir true) ->
  fs w !! (d </> name) = None ->
  fs w !! (d </> name </> "app.log") = None ->
  Str.assoc (Str.upper log_level) Logging._nameToLevel = Some n ->
  configure_logging (d </> name) log_level log_to_console w =
    (Returns tt,
     mkWorld (<[d </> name </> "app.log" := File]> (<[d </> name := Dir true]> (fs w)))
             n (log_sinks (d </> name) log_to_console) (log w) (writes w)).
Proof.
  intros Hd Hnone Hlog Hn. unfold configure_logging.
  cbn [OS.mkdir_parents]. py_unfold. rewrite Hnone, Hd. simpl.
  rewrite lookup_insert_ne by apply not_eq_sym, child_neq.
  rewrite Hlog, lookup_insert_eq.
  by rewrite (getattr_level _ _ _ Hn).
Qed.



Lemma configure_logging_twice_witness :
  configure_logging Out_dir "INFO" false (logging_ready start)
  = (Returns tt, logging_ready start).
Proof.
  apply (configure_logging_twice Out_dir "INFO" false start). vm_compute. reflexivity.
Defined.

Lemma configure_logging_new_directory_witness :
  configure_logging Out_dir "debug" true start =
    (Returns tt,
     mkWorld (<[Out_dir </> "app.log" := File]> (<[Out_dir := Dir true]> input_files))
             Logging.DEBUG [FileHandler (Out_dir </> "app.log"); StreamHandler] [] []).
Proof.
  apply (configure_logging_new_directory Root "out" "debug" true Logging.DEBUG start).
  - vm_compute. reflexivity.
  - vm_compute. reflexivity.
  - vm_compute. reflexivity.
  - reflexivity.
Defined.

(** ** [main]: the whole run *)

Section WholeRun.

Context (env : Collaborators).

(** The loop of [main] keeps the configuration of the root logger; its
    records are dispatched by it; an ERROR record is among them exactly
    when a document failed, and all are INFO records otherwise; the file
    system changes by new page files in the output directory only. *)
Lemma batch_outcomes_trace pdf_files output_dir : forall w,
  root_level (batch_outcomes env pdf_files output_dir w).2 = root_level w
  /\ root_handlers (batch_outcomes env pdf_files output_dir w).2 = root_handlers w
  /\ fs_extends (fs w) (fs (batch_outcomes env pdf_files output_dir w).2)
  /\ (forall p, (forall f i, p <> page_path f output_dir i) ->
        fs (batch_outcomes env pdf_files output_dir w).2 !! p = fs w !! p)
  /\ exists l,
       log (batch_outcomes env pdf_files output_dir w).2 = (log w ++ l)%list
       /\ Forall (dispatched w) l
       /\ (existsb failed (batch_outcomes env pdf_files output_dir w).1 = true ->
             Exists (fun r => rec_level r = Logging.ERROR) l)
       /\ (existsb failed (batch_outcomes env pdf_files output_dir w).1 = false ->
             Forall (fun r => rec_level r = Logging.INFO) l).
Proof.
  induction pdf_files as [|f rest IH]; intros w.
  - simpl. split_and!; try done; [apply fs_extends_refl|].
    exists []. rewrite app_nil_r. by split_and!.
  - cbn [batch_outcomes].
    destruct (pdf_to_pngs env f output_dir false w) as [r w1] eqn:Hrun.
    pose proof (pdf_to_pngs_effects _ _ _ _ _ _ _ Hrun) as (Hext & Hlv & Hh & _).
    pose proof (pdf_to_pngs_untouched _ _ _ _ _ _ _ Hrun) as Hun.
    pose proof (pdf_to_pngs_records _ _ _ _ _ _ _ Hrun) as (l1 & Hl1 & Hd1 & Hinfo).
    set (w1' := match r with
                | Raises e => with_log (log w1 ++ [error_record w1 (exn_str e)]) w1
                | Returns _ => w1 end).
    assert (root_level w1' = root_level w /\ root_handlers w1' = root_handlers w
            /\ fs w1' = fs w1) as (Hlv' & Hh' & Hfs').
    { subst w1'. by destruct r. }
    destruct (IH w1') as (Hlv2 & Hh2 & Hext2 & Hun2 & l2 & Hl2 & Hd2 & Hfail & Hfine).
    destruct (batch_outcomes env rest output_dir w1') as [rs w2]. simpl in *.
    split; [congruence|]. split; [congruence|]. split.
    { eapply fs_extends_trans; [exact Hext|]. by rewrite <- Hfs'. }
    split.
    { intros p Hp. rewrite (Hun2 p Hp), Hfs'. apply Hun. intros i. apply Hp. }
    assert (Forall (dispatched w) l2) as Hd2'.
    { eapply Forall_impl; [exact Hd2|]. intros r0. by apply dispatched_same. }
    destruct r as [ps|e]; subst w1'; simpl in *.
    + exists (l1 ++ l2)%list. rewrite Hl2, Hl1, <- app_assoc. split; [done|].
      split; [by apply Forall_app|]. split.
      * intros Hrs. apply Exists_app. right. by apply Hfail.
      * intros Hrs. apply Forall_app. split; [by eapply Hinfo|by apply Hfine].
    + exists (l1 ++ [error_record w1 (exn_str e)] ++ l2)%list.
      rewrite Hl2, Hl1, <- !app_assoc. split; [done|]. split.
      * apply Forall_app. split; [done|]. apply Forall_app. split; [|done].
        constructor; [|done]. eapply dispatched_same; [| |apply error_record_dispatched];
          done.
      * split; [|done]. intros _. apply Exists_app. right. apply Exists_app. left.
        by constructor.
Qed.

(** A run of [main] that returns an exit code has parsed its arguments
    and set up logging; what it did after that is summed up here. *)
Lemma main_trace args w c w2 :
  main env args w = (Returns c, w2) ->
  exists ns w1,
    parse_args env args w = (Returns ns, w)
    /\ configure_logging (output_dir ns) (log_level ns) (log_to_console ns) w
         = (Returns tt, w1)
    /\ root_level w2 = root_level w1
    /\ root_handlers w2 = root_handlers w1
    /\ fs_extends (fs w1) (fs w2)
    /\ (forall p, (forall f i, p <> page_path f (output_dir ns) i) ->
          fs w2 !! p = fs w1 !! p)
    /\ exists l,
         log w2 = (log w ++ l)%list
         /\ Forall (dispatched w1) l
         /\ (c = 1 -> Exists (fun r => rec_level r = Logging.ERROR) l)
         /\ (c <> 1 -> c = 0 /\ Forall (fun r => rec_level r = Logging.INFO
                                            \/ rec_level r = Logging.WARNING) l).
Proof.
  intros H.
  destruct (parse_args env args w) as [[ns|e] w0] eqn:Hp.
  2:{ rewrite (main_parse_error env args w e) in H by by rewrite Hp. done. }
  pose proof (parse_args_world env args w) as Hw0. rewrite Hp in Hw0. simpl in Hw0.
  subst w0.
  destruct (configure_logging (output_dir ns) (log_level ns) (log_to_console ns) w)
    as [[[]|e] w1] eqn:Hc.
  2:{ by rewrite (main_setup_error env _ _ _ _ _ Hp Hc) in H. }
  exists ns, w1. split; [done|]. split; [done|].
  rewrite (main_after_setup env _ _ _ _ Hp Hc) in H.
  apply configure_logging_silent in Hc as [Hlog _].
  unfold OS.is_dir, OS.access_W_OK, OS.glob_suffix in H.
  cbv beta iota zeta delta [bind get ret] in H.
  destruct (match fs w1 !! input_dir ns with Some (Dir _) => true | _ => false end).
  2:{ injection H as <- <-. simpl. split_and!; try done; [apply fs_extends_refl|].
      eexists. rewrite Hlog. split; [done|]. split; [by constructor|].
      split; [intros _; by constructor|done]. }
  destruct (match fs w1 !! output_dir ns with
            | Some File => true | Some (Dir wr) => wr | None => false end).
  2:{ injection H as <- <-. simpl. split_and!; try done; [apply fs_extends_refl|].
      eexists. rewrite Hlog. split; [done|]. split; [by constructor|].
      split; [intros _; by constructor|done]. }
  destruct (filter _ _) as [|f rest].
  { injection H as <- <-. simpl. split_and!; try done; [apply fs_extends_refl|].
    eexists. rewrite Hlog. split; [done|]. split; [by constructor|].
    split; [done|]. intros _. split; [done|]. constructor; [by right|done]. }
  rewrite convert_all_outcomes in H.
  destruct (batch_outcomes_trace (f :: rest) (output_dir ns) w1)
    as (Hlv & Hh & Hext & Hun & l & Hl & Hd & Hfail & Hfine).
  destruct (batch_outcomes env (f :: rest) (output_dir ns) w1) as [rs wb].
  cbn [fst snd] in *. injection H as <- <-.
  split_and!; try done. exists l. rewrite Hl, Hlog. split; [done|]. split; [done|].
  destruct (existsb failed _).
  - split; [intros _; by apply Hfail|done].
  - split; [done|]. intros _. split; [done|].
    eapply Forall_impl; [by apply Hfine|]. intros r0 ?. by left.
Qed.

End WholeRun.

Section RunProperties.

Context (env : Collaborators).

(** The five level names of the command line are level names of
    [logging], written in upper case. *)
Lemma choice_is_level_name v :
  In v ArgParse.log_level_choices ->
  Str.upper v = v /\ exists n, Str.assoc v Logging._nameToLevel = Some n.
Proof.
  simpl. intros [<-|[<-|[<-|[<-|[<-|[]]]]]]; split; try reflexivity; by eexists.
Qed.

Lemma parsed_level_is_choice args w ns :
  parse_args env args w = (Returns ns, w) ->
  In (log_level ns) ArgParse.log_level_choices.
Proof.
  unfold parse_args. intros [= H].
  pose proof (parse_cases (defaults env)
                (match args with Some a => a | None => sys_argv_tail env end)
                (default_log_level_recognized env)) as Hc.
  by rewrite H in Hc.
Qed.

(** Once the arguments are parsed and logging is set up, [main] returns an
    exit code. *)
Lemma main_returns_after_setup args w ns w1 :
  parse_args env args w = (Returns ns, w) ->
  configure_logging (output_dir ns) (log_level ns) (log_to_console ns) w
    = (Returns tt, w1) ->
  exists c w2, main env args w = (Returns c, w2).
Proof.
  intros Hp Hc. rewrite (main_after_setup env _ _ _ _ Hp Hc).
  unfold OS.is_dir, OS.access_W_OK, OS.glob_suffix.
  cbv beta iota zeta delta [bind get ret].
  destruct (match fs w1 !! input_dir ns with Some (Dir _) => true | _ => false end);
    [|by eauto].
  destruct (match fs w1 !! output_dir ns with
            | Some File => true | Some (Dir wr) => wr | None => false end);
    [|by eauto].
  destruct (filter _ _) as [|f rest]; [by eauto|].
  rewrite convert_all_outcomes. eauto.
Qed.

(** X10. When the arguments parse, logging setup succeeds and the input
    directory is there, but the output directory does not grant write
    permission, [main] logs the error [Output directory is not writable]
    and returns 1; it looks for no document, saves no image and leaves the
    file system as logging setup left it. *)
Theorem main_output_dir_not_writable args w ns w1 :
  parse_args env args w = (Returns ns, w) ->
  configure_logging (output_dir ns) (log_level ns) (log_to_console ns) w
    = (Returns tt, w1) ->
  OS.is_dir (input_dir ns) w1 = (Returns true, w1) ->
  OS.access_W_OK (output_dir ns) w1 = (Returns false, w1) ->
  exists w2,
    main env args w = (Returns 1, w2)
    /\ writes w2 = writes w
    /\ fs w2 = fs w1
    /\ log w2 = (log w ++ [error_record w1
          ("Output directory is not writable: " +:+ PathOps.str (output_dir ns))])%list.
Proof.
  intros Hp Hc Hdir Hacc.
  rewrite (main_after_setup env _ _ _ _ Hp Hc), Hdir, Hacc.
  apply configure_logging_silent in Hc as [Hl Hw].
  eexists. split; [done|]. simpl. by rewrite Hl.
Qed.

(** How [main] can raise: in the argument parser or in logging setup. *)
Lemma main_raises_cases args w e w' :
  main env args w = (Raises e, w') ->
  ((e = SystemExit 0 \/ e = SystemExit 2) /\ w' = w)
  \/ ((exists k p, e = OSError k p)
      /\ root_level w' = root_level w /\ root_handlers w' = root_handlers w
      /\ log w' = log w /\ writes w' = writes w).
Proof.
  intros H.
  destruct (parse_args env args w) as [[ns|e0] w0] eqn:Hp.
  - pose proof (parse_args_world env args w) as Hw0. rewrite Hp in Hw0.
    simpl in Hw0. subst w0.
    destruct (configure_logging (output_dir ns) (log_level ns) (log_to_console ns) w)
      as [[[]|e1] w1] eqn:Hc.
    + destruct (main_returns_after_setup _ _ _ _ Hp Hc) as (c & w2 & Hm). congruence.
    + rewrite (main_setup_error env _ _ _ _ _ Hp Hc) in H. injection H as <- <-.
      apply configure_logging_raises in Hc as [[He Hs]|(_ & Hn & _)]; [by right|].
      destruct (choice_is_level_name _ (parsed_level_is_choice _ _ _ Hp))
        as [Hup [n Hn']]. congruence.
  - rewrite (main_parse_error env args w e0) in H by by rewrite Hp.
    injection H as <- <-. left. split; [|done].
    unfold parse_args in Hp. injection Hp as Hp _.
    pose proof (parse_cases (defaults env)
                  (match args with Some a => a | None => sys_argv_tail env end)
                  (default_log_level_recognized env)) as Hc.
    by rewrite Hp in Hc.
Qed.


(** X12. The exit code [main] returns is 0 or 1, and it is 1 exactly when
    the run has logged a record at level ERROR. *)
Theorem main_exit_code_reflects_errors args w c w2 :
  main env args w = (Returns c, w2) ->
  (c = 0 \/ c = 1)
  /\ exists l, log w2 = (log w ++ l)%list
               /\ (c = 1 <-> Exists (fun r => rec_level r = Logging.ERROR) l).
Proof.
  intros (ns & w1 & _ & _ & _ & _ & _ & _ & l & Hl & _ & Herr & Hfine)%main_trace.
  destruct (decide (c = 1)) as [->|Hne].
  - split; [by right|]. exists l. split; [done|]. split; [done|done].
  - destruct (Hfine Hne) as [-> Hall]. split; [by left|]. exists l. split; [done|].
    split; [done|]. intros Hex. apply Exists_exists in Hex as (r & Hr & Hlev).
    rewrite Forall_forall in Hall. destruct (Hall r Hr) as [E|E];
      rewrite E in Hlev; discriminate.
Qed.

(** X13. In a run of [main] that returns, every record logged reached
    exactly the handlers the command line asked for ([app.log] in the
    output directory, and the console with [--log-to-console]) when its
    level is at least the level named by [--log-level], and no handler
    otherwise. *)
Theorem main_records_reach_configured_handlers args w c w2 :
  main env args w = (Returns c, w2) ->
  exists ns n l,
    parse_args env args w = (Returns ns, w)
    /\ Str.assoc (log_level ns) Logging._nameToLevel = Some n
    /\ log w2 = (log w ++ l)%list
    /\ Forall (fun r => rec_sinks r =
                 if n <=? rec_level r
                 then log_sinks (output_dir ns) (log_to_console ns) else []) l.
Proof.
  intros (ns & w1 & Hp & Hc & _ & _ & _ & _ & l & Hl & Hd & _)%main_trace.
  destruct (choice_is_level_name _ (parsed_level_is_choice _ _ _ Hp)) as [Hup [n Hn]].
  apply configure_logging_returns in Hc as (_ & _ & _ & _ & _ & Hh & Hattr).
  rewrite Hup, (getattr_level _ _ _ Hn) in Hattr. injection Hattr as Hlv.
  exists ns, n, l. split_and!; try done.
  eapply Forall_impl; [exact Hd|]. intros r. unfold dispatched.
  by rewrite <- Hlv, Hh.
Qed.

(** X14. A run of [main] that returns has changed no entry that existed.
    What it has added is the output directory with its missing parents,
    and files directly in the output directory: [app.log] and page
    images. *)
Theorem main_adds_only_under_output_dir args w c w2 :
  main env args w = (Returns c, w2) ->
  exists ns,
    parse_args env args w = (Returns ns, w)
    /\ forall p,
         fs w2 !! p = fs w !! p
         \/ (fs w !! p = None
             /\ ((fs w2 !! p = Some (Dir true) /\ ancestor_or_self p (output_dir ns))
                 \/ (fs w2 !! p = Some File /\ exists name, p = output_dir ns </> name))).
Proof.
  intros (ns & w1 & Hp & Hc & _ & _ & Hext & Hun & _)%main_trace.
  exists ns. split; [done|]. intros p.
  apply configure_logging_returns in Hc as (Hset & _).
  destruct (Hext p) as [E|[E1 E2]].
  - rewrite E. destruct (Hset p) as [E'|(E1 & [[E2 E3]|[E2 ->]])]; [by left|right..].
    + split; [done|]. by left.
    + split; [done|]. right. eauto.
  - right. split.
    + destruct (Hset p) as [E'|(E' & _)]; congruence.
    + right. split; [done|].
      destruct p as [|d name]; [|destruct (decide (d = output_dir ns)) as [->|Hne]].
      * rewrite Hun in E2 by done. congruence.
      * eauto.
      * rewrite Hun in E2; [congruence|]. intros f i. unfold page_path. congruence.
Qed.

End RunProperties.

Lemma main_output_dir_not_writable_witness :
  exists w2,
    main Scenario.env args Rerun.read_only_out = (Returns 1, w2)
    /\ writes w2 = []
    /\ map rec_msg (log w2) = ["Output directory is not writable: /out"].
Proof.
  destruct (main_output_dir_not_writable Scenario.env args Rerun.read_only_out parsed
              (logging_ready Rerun.read_only_out))
    as (w2 & Hrun & Hw & _ & Hlog).
  - vm_compute. reflexivity.
  - vm_compute. reflexivity.
  - vm_compute. reflexivity.
  - vm_compute. reflexivity.
  - exists w2. split; [exact Hrun|]. split; [exact Hw|]. rewrite Hlog. reflexivity.
Defined.


Lemma main_exit_code_reflects_errors_witness :
  exists l,
    log (snd (main Scenario.env args start)) = l
    /\ Exists (fun r => rec_level r = Logging.ERROR) l.
Proof.
  destruct (main_exit_code_reflects_errors Scenario.env args start 1
              (snd (main Scenario.env args start)))
    as (_ & l & Hl & Hiff).
  - vm_compute. reflexivity.
  - exists l. split; [exact Hl|]. apply Hiff. reflexivity.
Defined.

Lemma main_records_reach_configured_handlers_witness :
  exists ns n l,
    parse_args Scenario.env args start = (Returns ns, start)
    /\ Str.assoc (log_level ns) Logging._nameToLevel = Some n
    /\ log (snd (main Scenario.env args start)) = (log start ++ l)%list
    /\ Forall (fun r => rec_sinks r =
                 if n <=? rec_level r
                 then log_sinks (output_dir ns) (log_to_console ns) else []) l.
Proof.
  apply (main_records_reach_configured_handlers Scenario.env args start 1
           (snd (main Scenario.env args start))).
  vm_compute. reflexivity.
Defined.

Lemma main_adds_only_under_output_dir_witness :
  fs (snd (main Scenario.env args start)) !! report = Some File.
Proof.
  destruct (main_adds_only_under_output_dir Scenario.env args start 1
              (snd (main Scenario.env args start))) as (ns & _ & Hfs).
  - vm_compute. reflexivity.
  - destruct (Hfs report) as [E|[E _]].
    + rewrite E. vm_compute. reflexivity.
    + vm_compute in E. discriminate E.
Defined.

(** ** [parse_args]: spellings, repetitions, stray arguments *)

Lemma no_dash_is_argument v :
  Str.startswith "-" v = false ->
  ArgParse.classify v = ArgParse.TokArgument /\ String.eqb v "--" = false.
Proof.
  intros H. split.
  - unfold ArgParse.classify. by rewrite H.
  - destruct v as [|c v]; [done|]. unfold Str.startswith in H.
    cbn [String.prefix] in H.
    destruct (ascii_dec "-" c) as [<-|Hne]; [by destruct v|].
    cbn [String.eqb]. by destruct (Ascii.eqb_spec c "-") as [->|?].
Qed.

(** The options that take a value *)
Lemma valued_option_cases opt :
  In opt ["--input-dir"; "--output-dir"; "--log-level"] ->
  exists d,
    (d = ArgParse.dest_input_dir \/ d = ArgParse.dest_output_dir
     \/ d = ArgParse.dest_log_level)
    /\ String.eqb opt "--" = false
    /\ ArgParse.classify opt = ArgParse.TokOption d None
    /\ forall v, String.eqb (opt +:+ "=" +:+ v) "--" = false
                 /\ ArgParse.classify (opt +:+ "=" +:+ v)
                    = ArgParse.TokOption d (Some v).
Proof.
  simpl. intros [<-|[<-|[<-|[]]]];
    [exists ArgParse.dest_input_dir|exists ArgParse.dest_output_dir
    |exists ArgParse.dest_log_level];
    (split; [auto|]); (split; [reflexivity|]); (split; [reflexivity|]);
    intros v; split; reflexivity.
Qed.

(** X15. For each of the options that take a value, [--option=value] and
    [--option value] are read alike when the value does not start with
    [-]: at the head of the command line the parser gives the same result,
    and in the middle of one it goes on in the same way. *)
Theorem option_value_spellings_agree opt v rest defaults :
  In opt ["--input-dir"; "--output-dir"; "--log-level"] ->
  Str.startswith "-" v = false ->
  ArgParse.parse defaults ((opt +:+ "=" +:+ v) :: rest)
    = ArgParse.parse defaults (opt :: v :: rest)
  /\ forall ns extras,
       ArgParse.consume ((opt +:+ "=" +:+ v) :: rest) ns extras
       = ArgParse.consume (opt :: v :: rest) ns extras.
Proof.
  intros (d & Hd & Hdash & Hopt & Heq)%valued_option_cases
         [Harg Hvdash]%no_dash_is_argument.
  destruct (Heq v) as [Hdash' Hopt'].
  assert (forall ns extras,
            ArgParse.consume ((opt +:+ "=" +:+ v) :: rest) ns extras
            = ArgParse.consume (opt :: v :: rest) ns extras) as Hconsume.
  { intros ns extras. cbn [ArgParse.consume].
    rewrite Hdash, Hdash', Hopt, Hopt', Harg.
    by destruct Hd as [->|[->| ->]]. }
  split; [|done]. unfold ArgParse.parse. rewrite Hconsume.
  cbn [ArgParse.ambiguous]. by rewrite Hdash, Hdash', Hopt, Hopt', Hvdash, Harg.
Qed.

(** X16. When an option that takes a value is given twice in a row, the
    later value is the one that counts: the command line is read as if the
    earlier occurrence, once its value has been accepted, were not there. *)
Theorem repeated_option_last_wins opt a b rest defaults :
  In opt ["--input-dir"; "--output-dir"; "--log-level"] ->
  Str.startswith "-" a = false ->
  (opt = "--log-level" -> In a ArgParse.log_level_choices) ->
  ArgParse.parse defaults (opt :: a :: opt :: b :: rest)
    = ArgParse.parse defaults (opt :: b :: rest)
  /\ forall ns extras,
       ArgParse.consume (opt :: a :: opt :: b :: rest) ns extras
       = ArgParse.consume (opt :: b :: rest) ns extras.
Proof.
  intros Hin [Harg Hadash]%no_dash_is_argument Hchoice.
  assert (opt = "--log-level" -> Str.elem a ArgParse.log_level_choices = true) as He.
  { intros E. by apply elem_In, Hchoice. }
  destruct (valued_option_cases _ Hin) as (d & Hd & Hdash & Hopt & _).
  assert (forall ns extras,
            ArgParse.consume (opt :: a :: opt :: b :: rest) ns extras
            = ArgParse.consume (opt :: b :: rest) ns extras) as Hconsume.
  { intros ns extras.
    cbn [ArgParse.consume]. rewrite !Hdash, !Hopt, Harg.
    simpl in Hin. destruct Hd as [->|[->| ->]]; cbn [ArgParse.store].
    - by destruct (ArgParse.classify b).
    - by destruct (ArgParse.classify b).
    - destruct Hin as [<-|[<-|[<-|[]]]]; try discriminate Hopt.
      rewrite (He eq_refl). by destruct (ArgParse.classify b). }
  split; [|done]. unfold ArgParse.parse. rewrite Hconsume.
  cbn [ArgParse.ambiguous]. by rewrite Hdash, Hopt, Hadash, Harg.
Qed.

(** Once an argument that no option takes has been seen, the parser ends
    with an exit, whatever follows. *)
Lemma consume_with_extras : forall n toks, (length toks <= n)%nat ->
  forall ns extras, (0 < extras)%nat ->
  exists e, ArgParse.consume toks ns extras = Raises e.
Proof.
  induction n as [|n IH]; intros [|t rest] Hlen ns extras Hex; simpl in Hlen;
    try lia.
  - destruct extras; [lia|]. simpl. eauto.
  - destruct extras; [lia|]. simpl. eauto.
  - cbn [ArgParse.consume].
    destruct (String.eqb t "--"); [eauto|].
    assert (forall ns0 ex, (0 < ex)%nat ->
              exists e, ArgParse.consume rest ns0 ex = Raises e) as IHrest
      by (intros; apply IH; [lia|done]).
    assert (forall d v, exists e,
              match ArgParse.store d v ns with
              | Returns ns' => ArgParse.consume rest ns' extras
              | Raises e => Raises e
              end = Raises e) as Hstore.
    { intros d v. destruct (ArgParse.store d v ns); [by apply IHrest|eauto]. }
    assert (forall d, exists e,
              match rest with
              | [] => Raises (SystemExit 2)
              | v :: rest' =>
                  match ArgParse.classify v with
                  | ArgParse.TokArgument =>
                      match ArgParse.store d v ns with
                      | Returns ns' => ArgParse.consume rest' ns' extras
                      | Raises e => Raises e
                      end
                  | _ => Raises (SystemExit 2)
                  end
              end = Raises e) as Hnext.
    { intros d. destruct rest as [|v rest']; [eauto|].
      destruct (ArgParse.classify v); eauto.
      destruct (ArgParse.store d v ns); [|eauto].
      apply IH; [simpl in Hlen; lia|done]. }
    destruct (ArgParse.classify t) as [d [v|]| | |]; eauto;
      try (apply IHrest; lia).
    + destruct d; eauto.
    + destruct d; eauto.
Qed.

Section StrayArguments.

Context (env : Collaborators).

(** X17. A command line that starts with a word that is no option makes
    [main] exit through the argument parser: with status 2 for the usage
    error, or with status 0 when a help option further on is reached
    first; nothing is logged and no file or directory is made. *)
Theorem main_rejects_stray_argument t rest w :
  Str.startswith "-" t = false ->
  exists c,
    (c = 0 \/ c = 2)
    /\ main env (Some (t :: rest)) w = (Raises (SystemExit c), w).
Proof.
  intros [Harg Hdash]%no_dash_is_argument.
  pose proof (parse_cases (defaults env) (t :: rest)
                (default_log_level_recognized env)) as Hc.
  assert (exists e, ArgParse.parse (defaults env) (t :: rest) = Raises e) as [e He].
  { unfold ArgParse.parse. destruct (ArgParse.ambiguous _); [eauto|].
    cbn [ArgParse.consume]. rewrite Hdash, Harg.
    eapply consume_with_extras; [done|lia]. }
  rewrite He in Hc.
  assert (main env (Some (t :: rest)) w = (Raises e, w)) as Hm.
  { apply main_parse_error. unfold parse_args. simpl. exact He. }
  destruct Hc as [->| ->]; eauto.
Qed.

End StrayArguments.

Lemma option_value_spellings_agree_witness :
  ArgParse.parse (defaults Scenario.env) ["--output-dir=/out"; "--log-to-console"]
  = ArgParse.parse (defaults Scenario.env) ["--output-dir"; "/out"; "--log-to-console"].
Proof.
  apply (option_value_spellings_agree "--output-dir" "/out" ["--log-to-console"]
           (defaults Scenario.env)).
  - right. left. reflexivity.
  - reflexivity.
Defined.

Lemma repeated_option_last_wins_witness :
  ArgParse.parse (defaults Scenario.env)
    ["--log-level"; "DEBUG"; "--log-level"; "ERROR"]
  = ArgParse.parse (defaults Scenario.env) ["--log-level"; "ERROR"].
Proof.
  apply (repeated_option_last_wins "--log-level" "DEBUG" "ERROR" []
           (defaults Scenario.env)).
  - right. right. left. reflexivity.
  - reflexivity.
  - intros _. left. reflexivity.
Defined.

Lemma main_rejects_stray_argument_witness :
  exists c,
    (c = 0 \/ c = 2)
    /\ main Scenario.env (Some ["report.pdf"; "--output-dir"; "/out"]) start
       = (Raises (SystemExit c), start).
Proof.
  apply (main_rejects_stray_argument Scenario.env "report.pdf"
           ["--output-dir"; "/out"] start).
  reflexivity.
Defined.

(** ** The script *)

(** X18. Run as a script, the program always ends through an exception,
    and the interpreter's exit status is 0, 1 or 2.  Status 2 is the usage
    error of the argument parser and leaves no trace: the world is as it
    was.  With status 0 no record at level ERROR has been logged. *)
Theorem script_exit_status env w r w' :
  script env w = (r, w') ->
  (exists e, r = Raises e)
  /\ (exit_status r = 0 \/ exit_status r = 1 \/ exit_status r = 2)
  /\ (exit_status r = 2 -> w' = w)
  /\ (exit_status r = 0 ->
        exists l, log w' = (log w ++ l)%list
                  /\ Forall (fun rec => rec_level rec <> Logging.ERROR) l).
Proof.
  unfold script. unfold bind at 1.
  destruct (main env None w) as [[c|e] w2] eqn:Hm.
  - intros [= <- <-]. simpl.
    apply main_trace in Hm
      as (ns & w1 & _ & _ & _ & _ & _ & _ & l & Hl & _ & _ & Hfine).
    split; [eauto|]. destruct (decide (c = 1)) as [->|Hne].
    + split; [auto|]. split; [done|done].
    + destruct (Hfine Hne) as [-> Hall]. split; [auto|]. split; [done|].
      intros _. exists l. split; [done|]. eapply Forall_impl; [exact Hall|].
      intros rec [E|E]; rewrite E; done.
  - intros [= <- <-].
    apply main_raises_cases in Hm as [[[->| ->] ->]|[(k & p & ->) (_ & _ & Hlog & _)]];
      simpl.
    + split; [eauto|]. split; [auto|]. split; [done|]. intros _.
      exists []. by rewrite app_nil_r.
    + split; [eauto|]. split; [auto|]. split; [done|done].
    + split; [eauto|]. split; [auto|]. split; [done|done].
Qed.

Lemma script_exit_status_witness :
  exit_status (fst (script Scenario.env (process no_documents))) = 1
  /\ exists e, fst (script Scenario.env (process no_documents)) = Raises e.
Proof.
  destruct (script_exit_status Scenario.env (process no_documents)
              (fst (script Scenario.env (process no_documents)))
              (snd (script Scenario.env (process no_documents))))
    as (He & _).
  - vm_compute. reflexivity.
  - split; [vm_compute; reflexivity|exact He].
Defined.

(** ** Page paths of different documents *)

Lemma pretty_N_char_isdigit x : Str.isdigit (pretty_N_char x) = true.
Proof.
  destruct x as [|p]; [done|].
  do 4 (destruct p as [p|p|]; try done).
Qed.

Lemma pretty_N_go_digits x : forall s,
  Str.all Str.isdigit s = true -> Str.all Str.isdigit (pretty_N_go x s) = true.
Proof.
  induction (N.lt_wf_0 x) as [x _ IH]; intros s Hs.
  destruct (decide (x = 0)%N) as [->|Hne]; [by rewrite pretty_N_go_0|].
  rewrite pretty_N_go_step by lia. apply IH; [apply N.div_lt; lia|].
  cbn [Str.all]. by rewrite pretty_N_char_isdigit, Hs.
Qed.

(** The page number in a file name is written with decimal digits only. *)
Lemma pretty_nat_digits (n : nat) : Str.all Str.isdigit (pretty n) = true.
Proof.
  unfold pretty, pretty_nat, pretty, pretty_N.
  destruct (decide _); [done|]. by apply pretty_N_go_digits.
Qed.

Lemma rfind_digits c s :
  Str.isdigit c = false -> Str.all Str.isdigit s = true -> Str.rfind c s = None.
Proof.
  intros Hc. induction s as [|a s IH]; [done|]. cbn [Str.all Str.rfind].
  intros [Ha Hs]%andb_prop. rewrite (IH Hs).
  destruct (Ascii.eqb_spec a c) as [->|?]; [congruence|done].
Qed.

Lemma rfind_app c s t :
  Str.rfind c (s +:+ t) =
    match Str.rfind c t with
    | Some i => Some (String.length s + i)%nat
    | None => Str.rfind c s
    end.
Proof.
  induction s as [|a s IH].
  { change ("" +:+ t) with t. by destruct (Str.rfind c t). }
  change (String a s +:+ t) with (String a (s +:+ t)).
  cbn [Str.rfind String.length]. rewrite IH. by destruct (Str.rfind c t).
Qed.

Lemma string_app_assoc (a b c : string) : a +:+ (b +:+ c) = (a +:+ b) +:+ c.
Proof.
  induction a as [|x a IH]; [done|].
  change (String x (a +:+ b +:+ c) = String x ((a +:+ b) +:+ c)). by rewrite IH.
Qed.

Lemma string_app_inj_length (a b x y : string) :
  String.length a = String.length b -> a +:+ x = b +:+ y -> a = b /\ x = y.
Proof.
  revert b. induction a as [|c a IH]; intros [|c' b] Hlen H; try done.
  change (String c (a +:+ x) = String c' (b +:+ y)) in H.
  injection H as -> H. simpl in Hlen. destruct (IH b) as [-> ->]; [lia|done|done].
Qed.

Lemma page_path_inj_stem pdf_path pdf_path' output_dir output_dir' i j :
  page_path pdf_path output_dir i = page_path pdf_path' output_dir' j ->
  output_dir = output_dir'
  /\ PathOps.stem pdf_path = PathOps.stem pdf_path'
  /\ i = j.
Proof.
  unfold page_path. intros [= -> H]. split; [done|].
  assert (forall (s : string) (n : nat),
            s +:+ "_page_" +:+ pretty n +:+ ".png"
            = ((s +:+ "_page_") +:+ pretty n) +:+ ".png") as E
    by (intros; by rewrite !string_app_assoc).
  rewrite !E in H. apply string_app_inj_r in H.
  assert (forall (s : string) (n : nat),
            Str.rfind "_" ((s +:+ "_page_") +:+ pretty n)
            = Some (String.length s + 5)%nat) as Hlast.
  { intros s n. rewrite rfind_app, (rfind_digits "_" _ eq_refl (pretty_nat_digits n)).
    by rewrite rfind_app. }
  pose proof (f_equal (Str.rfind "_") H) as Hr. rewrite !Hlast in Hr.
  injection Hr as Hr.
  rewrite <- !string_app_assoc in H.
  apply string_app_inj_length in H as [Hstem Hrest]; [|lia].
  split; [done|]. apply String.app_inj in Hrest. by apply (inj pretty) in Hrest.
Qed.

(** X19. The file name of a page determines the document's stem and the
    page number: two page paths are equal exactly when the output
    directory, the stem and the page number are.  Documents with different
    stems never write to the same file; documents with the same stem,
    converted into the same directory, share every page path. *)
Theorem page_paths_of_different_stems_differ pdf_path pdf_path' output_dir output_dir' i j :
  page_path pdf_path output_dir i = page_path pdf_path' output_dir' j
  <-> output_dir = output_dir'
      /\ PathOps.stem pdf_path = PathOps.stem pdf_path'
      /\ i = j.
Proof.
  split; [apply page_path_inj_stem|].
  unfold page_path. by intros (-> & -> & ->).
Qed.

Lemma page_paths_of_different_stems_differ_witness :
  PathOps.stem report = PathOps.stem (Root </> "archive" </> "report.v2").
Proof.
  destruct (proj1 (page_paths_of_different_stems_differ report
                     (Root </> "archive" </> "report.v2") Out_dir Out_dir 1 1))
    as (_ & Hstem & _).
  - reflexivity.
  - exact Hstem.
Defined.

(** ** A batch in which every document converts *)

Section CleanBatch.

Context (env : Collaborators).

Lemma batch_outcomes_all_converted pdf_files output_dir : forall w,
  fs w !! output_dir = Some (Dir true) ->
  (forall f, f ∈ pdf_files -> exists images, decode_pdf env f = Decoded images) ->
  (forall f img p, save_fault env f img p = None) ->
  NoDup (map PathOps.stem pdf_files) ->
  (forall f i, f ∈ pdf_files -> fs w !! page_path f output_dir i = None) ->
  (batch_outcomes env pdf_files output_dir w).1
    = map (fun f => Returns (document_pages env output_dir f)) pdf_files
  /\ writes (batch_outcomes env pdf_files output_dir w).2
     = (writes w ++ concat (map (document_pages env output_dir) pdf_files))%list
  /\ (forall p, fs (batch_outcomes env pdf_files output_dir w).2 !! p =
                if decide (p ∈ concat (map (document_pages env output_dir) pdf_files))
                then Some File else fs w !! p).
Proof.
  induction pdf_files as [|f rest IH]; intros w Hdir Hdec Hok Hstems Hfresh.
  - simpl. rewrite app_nil_r. done.
  - destruct (Hdec f) as [images Hd]; [by left|].
    apply NoDup_cons in Hstems as [Hf Hstems].
    destruct (save_pages_fresh env f output_dir false images 1 [] w)
      as (w1 & Hrun & Hw1 & Hfs1); [done| |done|].
    { intros j _. apply Hfresh. by left. }
    assert (document_pages env output_dir f
            = map (page_path f output_dir) (seq 1 (length images))) as Hpages.
    { unfold document_pages. by rewrite Hd. }
    cbn [batch_outcomes map concat].
    rewrite (pdf_to_pngs_decoded _ _ _ _ _ _ Hd), Hrun. simpl app. rewrite Hpages.
    destruct (IH w1) as (Hrs & Hw2 & Hfs2); [| |done|done| |].
    + rewrite Hfs1, decide_False; [done|].
      intros (j & E & _)%list_elem_of_fmap. symmetry in E. by apply child_neq in E.
    + intros g Hg. apply Hdec. by right.
    + intros g i Hg. rewrite Hfs1, decide_False; [apply Hfresh; by right|].
      intros (j & E & _)%list_elem_of_fmap.
      apply page_path_inj_stem in E as (_ & E & _). apply Hf.
      rewrite <- E. apply list_elem_of_fmap. eauto.
    + destruct (batch_outcomes env rest output_dir w1) as [rs w2]. simpl in *.
      split; [by rewrite Hrs|]. split; [by rewrite Hw2, Hw1, <- app_assoc|].
      intros p. rewrite Hfs2, Hfs1.
      destruct (decide (p ∈ concat (map (document_pages env output_dir) rest)))
        as [Hin|Hout].
      * rewrite decide_True; [done|]. apply elem_of_app. by right.
      * destruct (decide (p ∈ map (page_path f output_dir) (seq 1 (length images))))
          as [Hin'|Hout'].
        -- rewrite decide_True; [done|]. apply elem_of_app. by left.
        -- rewrite decide_False; [done|]. by intros [?|?]%elem_of_app.
Qed.

(** X20. A clean batch: the arguments parse, logging is set up, the input
    directory is there, the output directory is writable, the documents
    found all decode, have different stems and none of their pages exists
    yet, and the encoder reports no fault.  Then [main] returns 0, has
    saved the pages of every document, document after document in the order
    they were found and page after page, and has changed nothing else in
    the file system after logging setup. *)
Theorem main_converts_every_document args w ns w1 pdf_files :
  parse_args env args w = (Returns ns, w) ->
  configure_logging (output_dir ns) (log_level ns) (log_to_console ns) w
    = (Returns tt, w1) ->
  OS.is_dir (input_dir ns) w1 = (Returns true, w1) ->
  OS.access_W_OK (output_dir ns) w1 = (Returns true, w1) ->
  OS.glob_suffix (input_dir ns) ".pdf" w1 = (Returns pdf_files, w1) ->
  pdf_files <> [] ->
  (forall f, f ∈ pdf_files -> exists images, decode_pdf env f = Decoded images) ->
  (forall f img p, save_fault env f img p = None) ->
  NoDup (map PathOps.stem pdf_files) ->
  (forall f i, f ∈ pdf_files -> fs w1 !! page_path f (output_dir ns) i = None) ->
  exists w2,
    main env args w = (Returns 0, w2)
    /\ writes w2
       = (writes w ++ concat (map (document_pages env (output_dir ns)) pdf_files))%list
    /\ (forall p, fs w2 !! p =
                  if decide (p ∈ concat (map (document_pages env (output_dir ns))
                                             pdf_files))
                  then Some File else fs w1 !! p).
Proof.
  intros Hp Hc Hdir Hacc Hglob Hne Hdec Hok Hstems Hfresh.
  rewrite (main_after_setup env _ _ _ _ Hp Hc), Hdir, Hacc, Hglob.
  apply configure_logging_returns in Hc as (_ & [b Hb] & _ & _ & Hw & _).
  assert (b = true) as ->.
  { revert Hacc. unfold OS.access_W_OK. cbv beta iota zeta delta [bind get ret].
    rewrite Hb. congruence. }
  destruct (batch_outcomes_all_converted pdf_files (output_dir ns) w1)
    as (Hrs & Hw2 & Hfs2); [done..|].
  exists (batch_outcomes env pdf_files (output_dir ns) w1).2.
  split; [|split; [by rewrite Hw2, Hw|done]].
  destruct pdf_files as [|f rest]; [done|].
  rewrite convert_all_outcomes, Hrs. f_equal.
  replace (existsb failed (map (fun f0 => Returns (document_pages env (output_dir ns) f0))
                             (f :: rest))) with false; [done|].
  symmetry. apply not_true_is_false. intros (r & Hr & Hfail)%existsb_exists.
  apply in_map_iff in Hr as (g & <- & _). done.
Qed.

End CleanBatch.

Lemma main_converts_every_document_witness :
  exists w2,
    main Scenario.env (Some ["--input-dir"; "/in"; "--output-dir"; "/out"])
      (process (delete notes input_files)) = (Returns 0, w2)
    /\ writes w2 = [Out_dir </> "report_page_1.png"; Out_dir </> "report_page_2.png"].
Proof.
  destruct (main_converts_every_document Scenario.env args
              (process (delete notes input_files)) parsed
              (logging_ready (process (delete notes input_files))) [report])
    as (w2 & Hrun & Hw & _).
  - vm_compute. reflexivity.
  - vm_compute. reflexivity.
  - vm_compute. reflexivity.
  - vm_compute. reflexivity.
  - vm_compute. reflexivity.
  - discriminate.
  - intros f ->%list_elem_of_singleton. eexists. reflexivity.
  - reflexivity.
  - repeat constructor. by intros ?%elem_of_nil.
  - intros f i ->%list_elem_of_singleton.
    change (fs (logging_ready (process (delete notes input_files))))
      with (<[Out_dir </> "app.log" := File]>
              (<[Out_dir := Dir true]> (delete notes input_files))).
    unfold page_path. change (PathOps.stem report) with "report".
    rewrite lookup_insert_ne by by intros [=].
    rewrite lookup_insert_ne by apply not_eq_sym, child_neq.
    rewrite lookup_delete_ne by (unfold notes, parsed, output_dir, Out_dir, In_dir; congruence).
    unfold input_files.
    rewrite !lookup_insert_ne
      by (unfold notes, report, parsed, output_dir, Out_dir, In_dir; congruence).
    apply lookup_empty.
  - exists w2. split; [exact Hrun|]. rewrite Hw. reflexivity.
Defined.
